(** * portfinder: the process finder, its enrichment and the list view

    A shallow embedding of [internal/process] (the shared file with [Kill],
    [detectProject] and [isDockerProcess], and the Linux, macOS and Windows
    back ends), of the [Update] function of the interactive process list,
    of the helpers of package ui ([truncate], [truncateCommand],
    [SimpleConfirm], [ShowProcessDetail], the reload command) and of the
    commands of package main that look up and kill.

    Go strings are byte sequences: they are lists of [ascii] here.  The
    operating system is a record of oracles, one field per system call or
    external command the code issues, so that every function below is an
    executable function of the answers the system gives. *)

From Stdlib Require Import ZArith Lia Ascii DecimalString DecimalZ DecimalPos.
From stdpp Require Import base option list gmap strings.

Local Open Scope Z_scope.

(** ** Byte strings *)

Definition str : Type := list ascii.

(** String literals are read as byte lists. *)
Coercion String.list_ascii_of_string : string >-> list.

Definition quote_byte : ascii := ascii_of_nat 34.
Definition nul_byte : ascii := ascii_of_nat 0.
Definition newline : ascii := ascii_of_nat 10.

Definition len (s : str) : Z := Z.of_nat (length s).

(** [len] of a slice of strings. *)
Definition len' (l : list str) : Z := Z.of_nat (length l).

(** [s[i:j]], for indices already known to be in range. *)
Definition slice (s : str) (i j : Z) : str :=
  take (Z.to_nat (j - i)) (drop (Z.to_nat i) s).

Definition slice_from (s : str) (i : Z) : str := drop (Z.to_nat i) s.

(** *** package strings *)

Fixpoint HasPrefix (s prefix : str) : bool :=
  match prefix, s with
  | [], _ => true
  | p :: prefix', c :: s' => Ascii.eqb c p && HasPrefix s' prefix'
  | _ :: _, [] => false
  end.

Definition TrimPrefix (s prefix : str) : str :=
  if HasPrefix s prefix then drop (length prefix) s else s.

Fixpoint index_from (i : Z) (s substr : str) : Z :=
  if HasPrefix s substr then i
  else match s with
       | [] => -1
       | _ :: s' => index_from (i + 1) s' substr
       end.

(** The index of the first instance of [substr] in [s], or -1. *)
Definition Index (s substr : str) : Z := index_from 0 s substr.

Definition Contains (s substr : str) : bool := 0 <=? Index s substr.

Fixpoint last_index_from (i : Z) (s substr : str) : Z :=
  match s with
  | [] => if HasPrefix [] substr then i else -1
  | _ :: s' =>
      let later := last_index_from (i + 1) s' substr in
      if 0 <=? later then later
      else if HasPrefix s substr then i else -1
  end.

(** The index of the last instance of [substr] in [s], or -1. *)
Definition LastIndex (s substr : str) : Z := last_index_from 0 s substr.

(** [strings.Split] for a one-byte separator, which is what every call in
    the program passes. *)
Fixpoint Split (s : str) (sep : ascii) : list str :=
  match s with
  | [] => [[]]
  | c :: s' =>
      if Ascii.eqb c sep then [] :: Split s' sep
      else match Split s' sep with
           | [] => [[c]]
           | w :: ws => (c :: w) :: ws
           end
  end.

(** [strings.SplitN(s, sep, 2)]: cut at the first separator only. *)
Fixpoint SplitN2 (s : str) (sep : ascii) : list str :=
  match s with
  | [] => [[]]
  | c :: s' =>
      if Ascii.eqb c sep then [[]; s']
      else match SplitN2 s' sep with
           | w :: ws => (c :: w) :: ws
           | [] => [[c]]
           end
  end.

Fixpoint Join (elems : list str) (sep : str) : str :=
  match elems with
  | [] => []
  | [e] => e
  | e :: rest => e ++ sep ++ Join rest sep
  end.

(** White space as [strings.Fields] and [strings.TrimSpace] see it on ASCII
    input: tab, line feed, vertical tab, form feed, carriage return, space.
    Command output and /proc files are taken to be ASCII. *)
Definition isSpace (c : ascii) : bool :=
  let n := N_of_ascii c in
  ((9 <=? n) && (n <=? 13))%N || (n =? 32)%N.

Fixpoint fields_aux (s : str) : str * list str :=
  match s with
  | [] => ([], [])
  | c :: s' =>
      let '(w, fs) := fields_aux s' in
      if isSpace c then ([], match w with [] => fs | _ => w :: fs end)
      else (c :: w, fs)
  end.

Definition Fields (s : str) : list str :=
  let '(w, fs) := fields_aux s in
  match w with [] => fs | _ => w :: fs end.

Fixpoint trim_left (f : ascii -> bool) (s : str) : str :=
  match s with
  | c :: s' => if f c then trim_left f s' else s
  | [] => []
  end.

Definition trim_right (f : ascii -> bool) (s : str) : str :=
  rev (trim_left f (rev s)).

Definition TrimSpace (s : str) : str := trim_right isSpace (trim_left isSpace s).

Definition in_cutset (cutset : str) (c : ascii) : bool :=
  existsb (Ascii.eqb c) cutset.

Definition Trim (s cutset : str) : str :=
  trim_right (in_cutset cutset) (trim_left (in_cutset cutset) s).

(** [strings.ReplaceAll] of one byte by another. *)
Definition ReplaceAll (s : str) (old new : ascii) : str :=
  map (fun c => if Ascii.eqb c old then new else c) s.

Definition toLower_byte (c : ascii) : ascii :=
  let n := N_of_ascii c in
  if ((65 <=? n) && (n <=? 90))%N then ascii_of_N (n + 32) else c.

Definition ToLower (s : str) : str := map toLower_byte s.

(** *** package strconv and fmt *)

Definition int_min : Z := - 2 ^ 63.
Definition int_max : Z := 2 ^ 63 - 1.

(** Two's complement wrap-around of a 64-bit signed integer. *)
Definition wrap64 (z : Z) : Z := (z + 2 ^ 63) mod 2 ^ 64 - 2 ^ 63.

Definition isDigit (c : ascii) : bool :=
  let n := N_of_ascii c in ((48 <=? n) && (n <=? 57))%N.

Definition digit_val (c : ascii) : Z := Z.of_N (N_of_ascii c) - 48.

Fixpoint parse_digits (acc : Z) (s : str) : option Z :=
  match s with
  | [] => Some acc
  | c :: s' => if isDigit c then parse_digits (10 * acc + digit_val c) s' else None
  end.

Definition parse_unsigned (s : str) : option Z :=
  match s with
  | [] => None
  | _ => parse_digits 0 s
  end.

(** [strconv.Atoi] on a 64-bit platform ([strconv.ParseInt(s, 10, 64)] is
    the same function): an optional sign, then decimal digits only; a value
    outside the int64 range is an error. *)
Definition Atoi (s : str) : option Z :=
  let signed :=
    match s with
    | c :: s' =>
        if Ascii.eqb c "+" then parse_unsigned s'
        else if Ascii.eqb c "-" then Z.opp <$> parse_unsigned s'
        else parse_unsigned s
    | [] => None
    end in
  match signed with
  | Some n => if (int_min <=? n) && (n <=? int_max) then Some n else None
  | None => None
  end.

(** [fmt.Sprintf("%d", n)]. *)
Definition Itoa (n : Z) : str :=
  String.list_ascii_of_string (NilZero.string_of_int (Z.to_int n)).

(** *** package path/filepath (Unix: the separator is the slash)

    [filepath.Clean] is library code; it is modelled from its documented
    rules, element by element: empty and [.] elements are dropped, a [..]
    removes the element before it, a [..] that has nothing to remove is
    dropped in a rooted path and kept in a relative one. *)

Definition is_sep (c : ascii) : bool := Ascii.eqb c "/".

Definition str_eqb (a b : str) : bool := bool_decide (a = b).

Arguments str_eqb : simpl never.

(** [out] holds the elements kept so far, last one first; [depth] counts
    those a later [..] may still remove. *)
Fixpoint clean_elems (rooted : bool) (out : list str) (depth : nat)
    (elems : list str) : list str :=
  match elems with
  | [] => rev out
  | e :: rest =>
      if str_eqb e [] || str_eqb e "." then clean_elems rooted out depth rest
      else if str_eqb e ".." then
        match depth with
        | S d => clean_elems rooted (tail out) d rest
        | O =>
            if rooted then clean_elems rooted out O rest
            else clean_elems rooted (e :: out) O rest
        end
      else clean_elems rooted (e :: out) (S depth) rest
  end.

Definition isRooted (path : str) : bool :=
  match path with
  | c :: _ => is_sep c
  | [] => false
  end.

(** The text of a cleaned path from its elements. *)
Definition render (rooted : bool) (elems : list str) : str :=
  match rooted, elems with
  | true, _ => "/" ++ Join elems "/"
  | false, [] => "."
  | false, _ => Join elems "/"
  end.

Definition filepath_Clean (path : str) : str :=
  match path with
  | [] => "."
  | _ =>
      let rooted := isRooted path in
      render rooted (clean_elems rooted [] 0 (Split path "/"))
  end.

(** [path[:i+1]] for [i] the index of the last separator (-1 if none). *)
Definition upto_last_sep (path : str) : str :=
  trim_right (fun c => negb (is_sep c)) path.

Definition filepath_Dir (path : str) : str :=
  filepath_Clean (upto_last_sep path).

Definition filepath_Base (path : str) : str :=
  match path with
  | [] => "."
  | _ =>
      let stripped := trim_right is_sep path in
      match drop (length (upto_last_sep stripped)) stripped with
      | [] => "/"
      | base => base
      end
  end.

Fixpoint filepath_Join (elem : list str) : str :=
  match elem with
  | [] => []
  | e :: rest =>
      match e with
      | [] => filepath_Join rest
      | _ => filepath_Clean (Join elem "/")
      end
  end.

(** *** package time

    An instant is the number of nanoseconds since the zero instant of
    [time.Time] (January 1 of year 1, 00:00:00 UTC), so the zero value is 0.
    A [Duration] is an int64 count of nanoseconds. *)

Definition Time : Type := Z.
Definition Duration : Type := Z.

Definition zero_Time : Time := 0.
Definition IsZero (t : Time) : bool := t =? 0.
Definition Time_Add (t : Time) (d : Duration) : Time := t + d.

Definition Millisecond : Duration := 1000000.
Definition Second : Duration := 1000000000.

(** ** Errors and the operating system *)

Inductive error : Type :=
  | ExitError (code : Z)
  | SysError (text : str)
  | Errorf (text : str)
  | Wrapf (text : str) (cause : error).

Inductive result (A : Type) : Type :=
  | Ok (a : A)
  | Err (e : error).

Arguments Ok {A} a.
Arguments Err {A} e.

Fixpoint error_text (e : error) : str :=
  match e with
  | ExitError code => "exit status " ++ Itoa code
  | SysError text => text
  | Errorf text => text
  | Wrapf text cause => text ++ ": " ++ error_text cause
  end.

(** What the program asks of its host.  [exec_Output] answers
    [exec.Command(name, args...).Output()] for the command line given as a
    list; [os_Stat] answers with the modification time; [syscall_Sysinfo]
    with the uptime in seconds.  [time_Parse] and [time_Date] are the
    library functions of those names. *)
Record OS : Type := {
  exec_Output : list str -> result str;
  os_ReadFile : str -> result str;
  os_Readlink : str -> result str;
  os_Stat : str -> result Time;
  syscall_Sysinfo : result Z;
  time_Now : Time;
  time_Parse : str -> str -> result Time;
  time_Date : Z -> Z -> Z -> Z -> Z -> Z -> Time
}.

Definition is_ok {A} (r : result A) : bool :=
  match r with Ok _ => true | Err _ => false end.

(** ** The shared part of package process *)

Record Process : Type := {
  PID : Z;
  Name : str;
  Port : Z;
  Command : str;
  ProjectPath : str;
  StartTime : Time;
  IsDocker : bool;
  DockerID : str
}.

(** The value of [&Process{PID: pid, Name: name, Port: port}]. *)
Definition new_Process (pid : Z) (name : str) (port : Z) : Process :=
  {| PID := pid; Name := name; Port := port; Command := []; ProjectPath := [];
     StartTime := zero_Time; IsDocker := false; DockerID := [] |}.

Definition set_Name (v : str) (p : Process) : Process :=
  {| PID := PID p; Name := v; Port := Port p; Command := Command p;
     ProjectPath := ProjectPath p; StartTime := StartTime p;
     IsDocker := IsDocker p; DockerID := DockerID p |}.

Definition set_Command (v : str) (p : Process) : Process :=
  {| PID := PID p; Name := Name p; Port := Port p; Command := v;
     ProjectPath := ProjectPath p; StartTime := StartTime p;
     IsDocker := IsDocker p; DockerID := DockerID p |}.

Definition set_ProjectPath (v : str) (p : Process) : Process :=
  {| PID := PID p; Name := Name p; Port := Port p; Command := Command p;
     ProjectPath := v; StartTime := StartTime p;
     IsDocker := IsDocker p; DockerID := DockerID p |}.

Definition set_StartTime (v : Time) (p : Process) : Process :=
  {| PID := PID p; Name := Name p; Port := Port p; Command := Command p;
     ProjectPath := ProjectPath p; StartTime := v;
     IsDocker := IsDocker p; DockerID := DockerID p |}.

Definition set_Docker (flag : bool) (id : str) (p : Process) : Process :=
  {| PID := PID p; Name := Name p; Port := Port p; Command := Command p;
     ProjectPath := ProjectPath p; StartTime := StartTime p;
     IsDocker := flag; DockerID := id |}.

Definition set_IsDocker (flag : bool) (p : Process) : Process :=
  set_Docker flag (DockerID p) p.

(** *** detectProject *)

Definition indicators : list str :=
  [ "package.json" : str; "go.mod" : str; "Cargo.toml" : str; "pom.xml" : str;
    "build.gradle" : str; "requirements.txt" : str; "Gemfile" : str;
    ".git" : str ].

(** The inner loop: some indicator can be stat'ed inside [current]. *)
Definition has_indicator (os : OS) (current : str) : bool :=
  existsb (fun indicator => is_ok (os_Stat os (filepath_Join [current; indicator])))
          indicators.

Inductive walk_result : Type :=
  | Found (dir : str)
  | NoMarker
  | OutOfFuel.

(** The outer loop, one round per unit of fuel. *)
Fixpoint walk_up (fuel : nat) (os : OS) (current : str) : walk_result :=
  match fuel with
  | O => OutOfFuel
  | S fuel' =>
      if has_indicator os current then Found current
      else
        let parent := filepath_Dir current in
        if str_eqb parent current || str_eqb parent "/" || str_eqb parent "."
        then NoMarker
        else walk_up fuel' os parent
  end.

(** [parts[len(parts)-2:]] *)
Definition last_two (parts : list str) : list str :=
  drop (length parts - 2) parts.

Definition detectProject_fallback (cwd : str) : str :=
  if (Contains cwd "home" || Contains cwd "Users")
     && (4 <? Z.of_nat (length (Split cwd "/")))
  then filepath_Join (last_two (Split cwd "/"))
  else filepath_Base cwd.

(** Every round of the loop shortens [current], so one unit of fuel per
    byte is enough (lemma [walk_up_fuel] below): the last case is never
    taken. *)
Definition detectProject (os : OS) (pid : Z) (cwd : str) : str :=
  match cwd with
  | [] => "unknown"
  | _ =>
      let cwd := filepath_Clean cwd in
      match walk_up (S (length cwd)) os cwd with
      | Found current => current
      | NoMarker => detectProject_fallback cwd
      | OutOfFuel => detectProject_fallback cwd
      end
  end.

(** *** isDockerProcess *)

(** The loop over the lines of the cgroup file. *)
Fixpoint docker_id_of_lines (lines : list str) : option str :=
  match lines with
  | [] => None
  | line :: rest =>
      if Contains line "docker" then
        match last (Split line "/") with
        | Some containerID =>
            if 12 <=? len containerID then Some (slice containerID 0 12)
            else docker_id_of_lines rest
        | None => docker_id_of_lines rest
        end
      else docker_id_of_lines rest
  end.

Definition isDockerProcess (os : OS) (pid : Z) : bool * str :=
  let cgroupPath := "/proc/" ++ Itoa pid ++ "/cgroup" in
  match os_ReadFile os cgroupPath with
  | Err _ => (false, [])
  | Ok content =>
      if Contains content "docker" then
        match docker_id_of_lines (Split content newline) with
        | Some id => (true, id)
        | None => (true, "unknown" : str)
        end
      else (false, [])
  end.

(** *** Kill

    Signalling acts on a table of processes.  An entry says whether the
    caller may signal the process, how it reacts to SIGTERM (the delay after
    which it exits, or [None] when it ignores the signal) and, once that is
    settled, the instant from which it is gone.  Every call is logged. *)

Inductive Signal : Type := SIGTERM | SIGKILL | SIGNULL.

Inductive SysEvent : Type :=
  | EvSignal (pid : Z) (sig : Signal)
  | EvSleep (d : Duration).

Record ProcEntry : Type := {
  owned : bool;
  on_term : option Duration;
  exit_at : option Time
}.

Record World : Type := {
  procs : gmap Z ProcEntry;
  clock : Time;
  find_error : option error;
  trace : list SysEvent
}.

Definition gone_by (e : ProcEntry) (now : Time) : bool :=
  match exit_at e with
  | Some t => t <=? now
  | None => false
  end.

(** The process exists at the current instant of the world. *)
Definition running (w : World) (pid : Z) : bool :=
  match procs w !! pid with
  | Some e => negb (gone_by e (clock w))
  | None => false
  end.

Definition log (ev : SysEvent) (w : World) : World :=
  {| procs := procs w; clock := clock w; find_error := find_error w;
     trace := trace w ++ [ev] |}.

Definition set_entry (pid : Z) (e : ProcEntry) (w : World) : World :=
  {| procs := <[pid := e]> (procs w); clock := clock w;
     find_error := find_error w; trace := trace w |}.

Definition schedule_exit (t : Time) (e : ProcEntry) : ProcEntry :=
  {| owned := owned e; on_term := on_term e;
     exit_at := match exit_at e with
                | Some t' => Some (Z.min t t')
                | None => Some t
                end |}.

(** The effect of a delivered signal on its target. *)
Definition deliver (sig : Signal) (now : Time) (e : ProcEntry) : ProcEntry :=
  match sig with
  | SIGNULL => e
  | SIGKILL => schedule_exit now e
  | SIGTERM =>
      match on_term e with
      | Some delay => schedule_exit (now + delay) e
      | None => e
      end
  end.

(** Computations over the world. *)
Definition M (A : Type) : Type := World -> A * World.

#[global] Instance M_ret : MRet M := fun A a w => (a, w).
#[global] Instance M_bind : MBind M :=
  fun A B f c w => let '(a, w') := c w in f a w'.

(** [os.FindProcess]: the handle is the pid. *)
Definition os_FindProcess (pid : Z) : M (result Z) :=
  fun w =>
    match find_error w with
    | Some err => (Err err, w)
    | None => (Ok pid, w)
    end.

(** [Signal] on an [os.Process] *)
Definition Process_Signal (pid : Z) (sig : Signal) : M (option error) :=
  fun w =>
    let w := log (EvSignal pid sig) w in
    match procs w !! pid with
    | None => (Some (SysError "os: process already finished"), w)
    | Some e =>
        if gone_by e (clock w) then
          (Some (SysError "os: process already finished"), w)
        else if negb (owned e) then
          (Some (SysError "operation not permitted"), w)
        else (None, set_entry pid (deliver sig (clock w) e) w)
    end.

(** [Kill] on an [os.Process] sends SIGKILL. *)
Definition Process_Kill (pid : Z) : M (option error) := Process_Signal pid SIGKILL.

Definition time_Sleep (d : Duration) : M unit :=
  fun w =>
    (tt, {| procs := procs w; clock := clock w + d; find_error := find_error w;
            trace := trace w ++ [EvSleep d] |}).

Definition grace_period : Duration := 2 * Second.

Definition Kill (p : Process) : M (option error) :=
  found ← os_FindProcess (PID p);
  match found with
  | Err err => mret (Some (Wrapf "process not found" err))
  | Ok process =>
      (* Send SIGTERM for graceful shutdown *)
      err ← Process_Signal process SIGTERM;
      match err with
      | Some err => mret (Some (Wrapf "failed to send SIGTERM" err))
      | None =>
          (* Wait a moment for graceful shutdown *)
          _ ← time_Sleep grace_period;
          (* Check if process still exists *)
          err ← Process_Signal process SIGNULL;
          match err with
          | None =>
              (* Process still running, force kill *)
              err ← Process_Kill process;
              match err with
              | Some err => mret (Some (Wrapf "failed to kill process" err))
              | None => mret None
              end
          | Some _ => mret None
          end
      end
  end.

(** ** A call either returns or panics (an index or slice out of range) *)

Inductive outcome (A : Type) : Type :=
  | Returns (a : A)
  | Panics (text : str).

Arguments Returns {A} a.
Arguments Panics {A} text.

#[global] Instance outcome_ret : MRet outcome := fun A a => Returns a.
#[global] Instance outcome_bind : MBind outcome :=
  fun A B f c =>
    match c with
    | Returns a => f a
    | Panics text => Panics text
    end.

(** ** The Linux back end *)

Module Linux.

(** The start time of a process from /proc/[pid]/stat. *)
Definition getProcessStartTime (os : OS) (pid : Z) : result Time :=
  match os_ReadFile os ("/proc/" ++ Itoa pid ++ "/stat") with
  | Err err => Err err
  | Ok content =>
      (* Find the last ) to handle process names with spaces/parentheses *)
      let lastParen := LastIndex content ")" in
      if lastParen =? -1 then Err (Errorf "invalid stat format")
      else
        let fields := Fields (slice_from content (lastParen + 1)) in
        if len' fields <? 20 then Err (Errorf "not enough fields in stat")
        else
          match fields !! 19%nat ≫= Atoi with
          | None => Err (Errorf "strconv.ParseInt: parsing failed")
          | Some startTicks =>
              match syscall_Sysinfo os with
              | Err err => Err err
              | Ok uptime =>
                  let clockTicks := 100 in
                  let bootTime :=
                    Time_Add (time_Now os) (wrap64 (wrap64 (- uptime) * Second)) in
                  let startTime :=
                    Time_Add bootTime
                      (wrap64 (Z.quot (wrap64 (startTicks * 1000)) clockTicks
                               * Millisecond)) in
                  Ok startTime
              end
          end
  end.

Definition enrichProcessInfo (os : OS) (proc : Process) : Process :=
  let pid := Itoa (PID proc) in
  (* Get process name if not already set *)
  let proc :=
    if str_eqb (Name proc) [] then
      match os_ReadFile os ("/proc/" ++ pid ++ "/comm") with
      | Ok cmdline => set_Name (TrimSpace cmdline) proc
      | Err _ => proc
      end
    else proc in
  (* Get command line *)
  let proc :=
    match os_ReadFile os ("/proc/" ++ pid ++ "/cmdline") with
    | Ok cmdline => set_Command (TrimSpace (ReplaceAll cmdline nul_byte " ")) proc
    | Err _ => proc
    end in
  (* Get working directory *)
  let proc :=
    match os_Readlink os ("/proc/" ++ pid ++ "/cwd") with
    | Ok cwd => set_ProjectPath (detectProject os (PID proc) cwd) proc
    | Err _ => proc
    end in
  (* Get actual start time *)
  let proc :=
    match getProcessStartTime os (PID proc) with
    | Ok startTime => set_StartTime startTime proc
    | Err _ =>
        (* Fallback to stat time *)
        match os_Stat os ("/proc/" ++ pid) with
        | Ok modTime => set_StartTime modTime proc
        | Err _ => proc
        end
    end in
  (* Check if Docker *)
  let '(isDocker, dockerID) := isDockerProcess os (PID proc) in
  set_Docker isDocker dockerID proc.

Definition parseSSLine (os : OS) (line : str) (port : Z)
    : outcome (result (option Process)) :=
  let fields := Fields line in
  if len' fields <? 7 then Returns (Ok None)
  else
    (* PID/Program is the last field: users:((nginx,pid=1234,fd=6)) *)
    match last fields with
    | None => Returns (Ok None)
    | Some pidProg =>
        if negb (Contains pidProg "pid=") then Returns (Ok None)
        else
          let pidStart := Index pidProg "pid=" + 4 in
          let pidEnd := Index (slice_from pidProg pidStart) "," in
          let pidEnd :=
            if pidEnd =? -1 then Index (slice_from pidProg pidStart) ")"
            else pidEnd in
          if pidEnd <? 0 then Panics "slice bounds out of range"
          else
            match Atoi (slice pidProg pidStart (pidStart + pidEnd)) with
            | None => Returns (Ok None)
            | Some pid =>
                Returns (Ok (Some (enrichProcessInfo os (new_Process pid [] port))))
            end
    end.

Definition parseNetstatLine (os : OS) (line : str) (port : Z)
    : result (option Process) :=
  let fields := Fields line in
  if len' fields <? 7 then Ok None
  else
    match fields !! 6%nat with
    | None => Ok None
    | Some pidProg =>
        if str_eqb pidProg "-" then Ok None
        else
          match Split pidProg "/" with
          | [pidText; name] =>
              match Atoi pidText with
              | None => Ok None
              | Some pid => Ok (Some (enrichProcessInfo os (new_Process pid name port)))
              end
          | _ => Ok None
          end
    end.

(** The test both lookups apply to a line of the socket table. *)
Definition line_mentions (port : Z) (line : str) : bool :=
  Contains line (":" ++ Itoa port) && Contains line "LISTEN".

Definition findUsingSS (os : OS) (port : Z) : outcome (result (option Process)) :=
  match exec_Output os ["ss" : str; "-tulnp" : str; "sport = :" ++ Itoa port] with
  | Err err => Returns (Err err)
  | Ok output =>
      let lines := Split output newline in
      match find (line_mentions port) (tail lines) with
      | Some line => parseSSLine os line port
      | None => Returns (Ok None)
      end
  end.

Definition findUsingNetstat (os : OS) (port : Z) : result (option Process) :=
  match exec_Output os ["netstat" : str; "-tulnp" : str] with
  | Err err => Err err
  | Ok output =>
      let lines := Split output newline in
      match find (line_mentions port) lines with
      | Some line => parseNetstatLine os line port
      | None => Ok None
      end
  end.

Definition FindByPort (os : OS) (port : Z) : outcome (result (option Process)) :=
  (* First try ss (socket statistics) *)
  r ← findUsingSS os port;
  match r with
  | Ok (Some proc) => Returns (Ok (Some proc))
  | _ =>
      (* Fallback to netstat *)
      Returns (findUsingNetstat os port)
  end.

(** The port of an address such as 0.0.0.0:80 or [::]:80. *)
Definition port_of_addr (addr : str) : option Z :=
  let parts := Split addr ":" in
  if len' parts <? 2 then None else last parts ≫= Atoi.

(** The loop of [parseSSOutput] over the lines after the header. *)
Fixpoint parseSS_lines (os : OS) (lines : list str) : outcome (list Process) :=
  match lines with
  | [] => Returns []
  | line :: rest =>
      if negb (Contains line "LISTEN") then parseSS_lines os rest
      else
        let fields := Fields line in
        if len' fields <? 5 then parseSS_lines os rest
        else
          match fields !! 4%nat ≫= port_of_addr with
          | None => parseSS_lines os rest
          | Some port =>
              r ← parseSSLine os line port;
              processes ← parseSS_lines os rest;
              match r with
              | Ok (Some proc) => Returns (proc :: processes)
              | _ => Returns processes
              end
          end
  end.

Definition parseSSOutput (os : OS) (output : str) : outcome (list Process) :=
  parseSS_lines os (tail (Split output newline)).

(** The loop of [parseNetstatOutput]. *)
Fixpoint parseNetstat_lines (os : OS) (lines : list str) : list Process :=
  match lines with
  | [] => []
  | line :: rest =>
      if negb (Contains line "LISTEN") then parseNetstat_lines os rest
      else
        let fields := Fields line in
        if len' fields <? 7 then parseNetstat_lines os rest
        else
          match fields !! 3%nat ≫= port_of_addr with
          | None => parseNetstat_lines os rest
          | Some port =>
              match parseNetstatLine os line port with
              | Ok (Some proc) => proc :: parseNetstat_lines os rest
              | _ => parseNetstat_lines os rest
              end
          end
  end.

Definition parseNetstatOutput (os : OS) (output : str) : list Process :=
  parseNetstat_lines os (Split output newline).

Definition ListAll (os : OS) : outcome (result (list Process)) :=
  (* Try ss first *)
  match exec_Output os ["ss" : str; "-tulnp" : str] with
  | Ok output =>
      procs ← parseSSOutput os output;
      Returns (Ok procs)
  | Err _ =>
      (* Fallback to netstat *)
      match exec_Output os ["netstat" : str; "-tulnp" : str] with
      | Err err => Returns (Err (Wrapf "failed to list ports" err))
      | Ok output => Returns (Ok (parseNetstatOutput os output))
      end
  end.

End Linux.

(** ** Regular expressions of the macOS and Windows back ends

    The two patterns have the shape colon, digits, white space and then a
    fixed text (empty on Windows).  Each repetition is followed by something
    it cannot match itself, so the leftmost match takes the longest run of
    digits and of spaces, and nothing else has to be tried at a colon. *)

(** [\s] of Go regular expressions. *)
Definition isRegexSpace (c : ascii) : bool :=
  let n := N_of_ascii c in
  (n =? 9)%N || (n =? 10)%N || (n =? 12)%N || (n =? 13)%N || (n =? 32)%N.

Fixpoint take_run (f : ascii -> bool) (s : str) : str :=
  match s with
  | c :: s' => if f c then c :: take_run f s' else []
  | [] => []
  end.

(** At the text after a colon: the digits, when spaces and [suffix] follow. *)
Definition match_after_colon (suffix : str) (s : str) : option str :=
  let digits := take_run isDigit s in
  let rest := trim_left isDigit s in
  let after := trim_left isRegexSpace rest in
  match digits, take_run isRegexSpace rest with
  | _ :: _, _ :: _ => if HasPrefix after suffix then Some digits else None
  | _, _ => None
  end.

(** Group 1 of the leftmost match of colon, digits, spaces, [suffix]. *)
Fixpoint find_port_submatch (suffix : str) (s : str) : option str :=
  match s with
  | [] => None
  | c :: s' =>
      if Ascii.eqb c ":" then
        match match_after_colon suffix s' with
        | Some digits => Some digits
        | None => find_port_submatch suffix s'
        end
      else find_port_submatch suffix s'
  end.

(** [MatchString] for the pattern made of [text] followed by spaces. *)
Fixpoint match_text_space (text : str) (s : str) : bool :=
  (HasPrefix s text
   && match drop (length text) s with
      | c :: _ => isRegexSpace c
      | [] => false
      end)
  || match s with
     | [] => false
     | _ :: s' => match_text_space text s'
     end.

(** The key of the process maps, [fmt.Sprintf] of pid, dash, port. *)
Definition map_key (pid port : Z) : str := Itoa pid ++ "-" ++ Itoa port.

(** The processes of a map, in the order [map_to_list] gives them; Go leaves
    the order of iteration open. *)
Definition map_values (m : gmap str Process) : list Process :=
  (map_to_list m).*2.

(** ** The macOS back end *)

Module Darwin.

Definition lstart_layout : str := "Mon Jan _2 15:04:05 2006".

(** The last loop of [enrichProcessInfo]: the cwd line of lsof. *)
Fixpoint cwd_lines (os : OS) (lines : list str) (proc : Process) : Process :=
  match lines with
  | [] => proc
  | line :: rest =>
      let fields := Fields line in
      if Contains line "cwd" && (8 <? len' fields) then
        match last fields with
        | Some cwd => cwd_lines os rest (set_ProjectPath (detectProject os (PID proc) cwd) proc)
        | None => cwd_lines os rest proc
        end
      else cwd_lines os rest proc
  end.

Definition enrichProcessInfo (os : OS) (proc : Process) : Process :=
  let pid := Itoa (PID proc) in
  (* Get process info using ps *)
  match exec_Output os ["ps" : str; "-p" : str; pid; "-o" : str; "comm=,command=" : str] with
  | Err _ => proc
  | Ok output =>
      let lines := Split (TrimSpace output) newline in
      let proc :=
        match lines with
        | line :: _ =>
            match SplitN2 line " " with
            | _ :: rest :: _ => set_Command (TrimSpace rest) proc
            | _ => proc
            end
        | [] => proc
        end in
      (* Get process start time properly on macOS *)
      let proc :=
        match exec_Output os ["ps" : str; "-p" : str; pid; "-o" : str; "lstart=" : str] with
        | Ok output =>
            let startTimeStr := TrimSpace output in
            match time_Parse os lstart_layout startTimeStr with
            | Ok t => set_StartTime t proc
            | Err _ =>
                (* Fallback to current time if parsing fails *)
                set_StartTime (time_Now os) proc
            end
        | Err _ => proc
        end in
      (* Get working directory *)
      let proc :=
        match exec_Output os ["lsof" : str; "-p" : str; pid; "-d" : str; "cwd" : str; "-a" : str] with
        | Ok output => cwd_lines os (Split output newline) proc
        | Err _ => proc
        end in
      (* Simple Docker detection on macOS *)
      if Contains (Command proc) "docker" || Contains (Name proc) "com.docker"
      then set_IsDocker true proc
      else proc
  end.

(** The loop of [parseLsofOutput] over the lines after the header. *)
Fixpoint parseLsof_lines (os : OS) (lines : list str) (port : Z) : option Process :=
  match lines with
  | [] => None
  | line :: rest =>
      let fields := Fields line in
      if len' fields <? 9 then parseLsof_lines os rest port
      else if negb (Contains line "LISTEN") then parseLsof_lines os rest port
      else
        match fields with
        | name :: pidText :: _ =>
            match Atoi pidText with
            | None => parseLsof_lines os rest port
            | Some pid => Some (enrichProcessInfo os (new_Process pid name port))
            end
        | _ => parseLsof_lines os rest port
        end
  end.

Definition parseLsofOutput (os : OS) (output : str) (port : Z)
    : result (option Process) :=
  let lines := Split (TrimSpace output) newline in
  if len' lines <? 2 then Ok None
  else Ok (parseLsof_lines os (tail lines) port).

Definition FindByPort (os : OS) (port : Z) : result (option Process) :=
  (* Use lsof on macOS *)
  match exec_Output os ["lsof" : str; "-i" : str; ":" ++ Itoa port; "-n" : str; "-P" : str] with
  | Err err =>
      (* No process found is not an error *)
      match err with
      | ExitError 1 => Ok None
      | _ => Err (Wrapf "lsof failed" err)
      end
  | Ok output => parseLsofOutput os output port
  end.

(** The loop of [parseLsofOutputMultiple], threading the process map. *)
Fixpoint parseLsof_map (os : OS) (lines : list str) (processMap : gmap str Process)
    : gmap str Process :=
  match lines with
  | [] => processMap
  | line :: rest =>
      let fields := Fields line in
      if len' fields <? 9 then parseLsof_map os rest processMap
      else if negb (Contains line "LISTEN") then parseLsof_map os rest processMap
      else
        match find_port_submatch "(LISTEN)" line ≫= Atoi, fields with
        | Some port, name :: pidText :: _ =>
            match Atoi pidText with
            | None => parseLsof_map os rest processMap
            | Some pid =>
                let key := map_key pid port in
                match processMap !! key with
                | Some _ => parseLsof_map os rest processMap
                | None =>
                    let proc := enrichProcessInfo os (new_Process pid name port) in
                    parseLsof_map os rest (<[key := proc]> processMap)
                end
            end
        | _, _ => parseLsof_map os rest processMap
        end
  end.

Definition parseLsofOutputMultiple (os : OS) (output : str) : result (list Process) :=
  let lines := Split (TrimSpace output) newline in
  if len' lines <? 2 then Ok []
  else Ok (map_values (parseLsof_map os (tail lines) ∅)).

Definition ListAll (os : OS) : result (list Process) :=
  match exec_Output os ["lsof" : str; "-i" : str; "-n" : str; "-P" : str] with
  | Err err => Err (Wrapf "lsof failed" err)
  | Ok output => parseLsofOutputMultiple os output
  end.

End Darwin.

(** ** The Windows back end

    The path functions of Windows are not modelled: project detection is
    the parameter [detect] of the enrichment, standing for [detectProject]
    on that platform. *)

Module Windows.

Section Backend.

Variable detect : Z -> str -> str.

(** The state of [parseCSVLine]: the fields so far, the current one (both
    last first) and whether a quote is open. *)
Fixpoint parseCSV_chars (line : str) (fields : list str) (current : str)
    (inQuotes : bool) : list str :=
  match line with
  | [] =>
      match current with
      | [] => rev fields
      | _ => rev (rev current :: fields)
      end
  | char :: rest =>
      if Ascii.eqb char quote_byte then
        parseCSV_chars rest fields (char :: current) (negb inQuotes)
      else if Ascii.eqb char "," then
        if inQuotes then parseCSV_chars rest fields (char :: current) inQuotes
        else parseCSV_chars rest (rev current :: fields) [] inQuotes
      else parseCSV_chars rest fields (char :: current) inQuotes
  end.

Definition parseCSVLine (line : str) : list str :=
  parseCSV_chars line [] [] false.

(** The trimmed text after [key] on the first line that starts with it. *)
Fixpoint first_value (key : str) (lines : list str) : option str :=
  match lines with
  | [] => None
  | line :: rest =>
      if HasPrefix line key then Some (TrimSpace (TrimPrefix line key))
      else first_value key rest
  end.

(** [n, _ := strconv.Atoi(s)]: the error is dropped and 0 stands for it. *)
Definition atoi_or_zero (s : str) : Z := default 0 (Atoi s).

Definition wmic (pid : Z) (property : str) : list str :=
  ["wmic" : str; "process" : str; "where" : str; "ProcessId=" ++ Itoa pid;
   "get" : str; property; "/format:list" : str].

(** The loop over the words of the command line. *)
Fixpoint project_from_command (pid : Z) (parts : list str) (proc : Process) : Process :=
  match parts with
  | [] => proc
  | part :: rest =>
      if Contains part "\" || Contains part "/" then
        let proc := set_ProjectPath (detect pid part) proc in
        if negb (str_eqb (ProjectPath proc) []) && negb (str_eqb (ProjectPath proc) "unknown")
        then proc
        else project_from_command pid rest proc
      else project_from_command pid rest proc
  end.

Definition enrichProcessInfo (os : OS) (proc : Process) : Process :=
  let pid := PID proc in
  (* Get command line using wmic *)
  let proc :=
    match exec_Output os (wmic pid "CommandLine") with
    | Ok output =>
        match first_value "CommandLine=" (Split output newline) with
        | Some command => set_Command command proc
        | None => proc
        end
    | Err _ => proc
    end in
  (* Get process start time *)
  let proc :=
    match exec_Output os (wmic pid "CreationDate") with
    | Ok output =>
        match first_value "CreationDate=" (Split output newline) with
        | Some dateStr =>
            (* WMI datetime format: 20231228103045.123456+060 *)
            if 14 <=? len dateStr then
              let year := atoi_or_zero (slice dateStr 0 4) in
              let month := atoi_or_zero (slice dateStr 4 6) in
              let day := atoi_or_zero (slice dateStr 6 8) in
              let hour := atoi_or_zero (slice dateStr 8 10) in
              let minute := atoi_or_zero (slice dateStr 10 12) in
              let second := atoi_or_zero (slice dateStr 12 14) in
              set_StartTime (time_Date os year month day hour minute second) proc
            else proc
        | None => proc
        end
    | Err _ => proc
    end in
  (* If start time is not set, use current time as fallback *)
  let proc :=
    if IsZero (StartTime proc) then set_StartTime (time_Now os) proc else proc in
  (* Get working directory *)
  let proc :=
    match exec_Output os (wmic pid "ExecutablePath") with
    | Ok output =>
        match first_value "ExecutablePath=" (Split output newline) with
        | Some exePath =>
            if negb (str_eqb exePath []) then set_ProjectPath (detect pid exePath) proc
            else proc
        | None => proc
        end
    | Err _ => proc
    end in
  (* If project path is still empty, try to detect from command *)
  let proc :=
    if str_eqb (ProjectPath proc) [] && negb (str_eqb (Command proc) [])
    then project_from_command pid (Fields (Command proc)) proc
    else proc in
  (* Simple Docker detection on Windows *)
  if Contains (ToLower (Name proc)) "docker" || Contains (ToLower (Command proc)) "docker"
  then set_IsDocker true proc
  else proc.

(** The loop of [getProcessDetails] over the lines after the CSV header. *)
Fixpoint details_lines (os : OS) (lines : list str) (proc : Process) : option Process :=
  match lines with
  | [] => None
  | line :: rest =>
      let line := TrimSpace line in
      if str_eqb line [] then details_lines os rest proc
      else
        let fields := parseCSVLine line in
        if 9 <=? len' fields then
          match fields with
          | name :: _ => Some (enrichProcessInfo os (set_Name (Trim name [quote_byte]) proc))
          | [] => None
          end
        else details_lines os rest proc
  end.

Definition getProcessDetails (os : OS) (pid port : Z) : result (option Process) :=
  if pid =? 0 then Ok None
  else
    let proc := new_Process pid [] port in
    match exec_Output os ["tasklist" : str; "/FI" : str; "PID eq " ++ Itoa pid;
                          "/FO" : str; "CSV" : str; "/V" : str] with
    | Err err => Err (Wrapf "tasklist failed" err)
    | Ok output =>
        let lines := Split output newline in
        if len' lines <? 2 then Err (Errorf ("no process found for PID " ++ Itoa pid))
        else
          match details_lines os (tail lines) proc with
          | Some proc => Ok (Some proc)
          | None => Err (Errorf ("could not parse process details for PID " ++ Itoa pid))
          end
    end.

Fixpoint findPID_lines (lines : list str) (port : Z) : Z :=
  match lines with
  | [] => 0
  | line :: rest =>
      if negb (Contains line "LISTENING") then findPID_lines rest port
      else if match_text_space (":" ++ Itoa port) line then
        let fields := Fields line in
        if 5 <=? len' fields then
          match last fields ≫= Atoi with
          | Some pid => pid
          | None => findPID_lines rest port
          end
        else findPID_lines rest port
      else findPID_lines rest port
  end.

Definition findPIDByPort (output : str) (port : Z) : Z :=
  findPID_lines (Split output newline) port.

Definition FindByPort (os : OS) (port : Z) : result (option Process) :=
  match exec_Output os ["netstat" : str; "-ano" : str; "-p" : str; "tcp" : str] with
  | Err err => Err (Wrapf "netstat failed" err)
  | Ok output =>
      let pid := findPIDByPort output port in
      if pid =? 0 then Ok None
      else getProcessDetails os pid port
  end.

(** The loop of [parseNetstatOutput], threading the process map. *)
Fixpoint parseNetstat_map (os : OS) (lines : list str) (processMap : gmap str Process)
    : gmap str Process :=
  match lines with
  | [] => processMap
  | line :: rest =>
      if negb (Contains line "LISTENING") then parseNetstat_map os rest processMap
      else
        let fields := Fields line in
        if len' fields <? 5 then parseNetstat_map os rest processMap
        else
          match (fields !! 1%nat ≫= find_port_submatch []) ≫= Atoi,
                last fields ≫= Atoi with
          | Some port, Some pid =>
              if pid =? 0 then parseNetstat_map os rest processMap
              else
                let key := map_key pid port in
                match processMap !! key with
                | Some _ => parseNetstat_map os rest processMap
                | None =>
                    match getProcessDetails os pid port with
                    | Ok (Some proc) =>
                        parseNetstat_map os rest (<[key := proc]> processMap)
                    | _ => parseNetstat_map os rest processMap
                    end
                end
          | _, _ => parseNetstat_map os rest processMap
          end
  end.

Definition parseNetstatOutput (os : OS) (output : str) : result (list Process) :=
  Ok (map_values (parseNetstat_map os (Split output newline) ∅)).

Definition ListAll (os : OS) : result (list Process) :=
  match exec_Output os ["netstat" : str; "-ano" : str; "-p" : str; "tcp" : str] with
  | Err err => Err (Wrapf "netstat failed" err)
  | Ok output => parseNetstatOutput os output
  end.

End Backend.

End Windows.

(** ** The interactive process list (package ui)

    The table and spinner widgets and the formatting of a duration (which
    goes through floating point) are library code: they are parameters.
    The table's own [Update] moves the cursor and nothing else; its rows
    change through [SetRows] alone. *)

Module UI.

Definition Row : Type := list str.

Record TableModel : Type := {
  rows : list Row;
  cursor : Z;
  table_height : Z;
  table_width : Z
}.

Inductive Msg : Type :=
  | WindowSizeMsg (width height : Z)
  | KeyMsg (key : str)
  | processesLoadedMsg (processes : list Process)
  | timerExpiredMsg
  | spinner_TickMsg
  | otherMsg.

Inductive Cmd : Type :=
  | tea_Quit
  | reloadProcesses
  | waitForTimer (d : Duration)
  | spinner_Cmd
  | table_Cmd.

Record ProcessListModel : Type := {
  processes : list Process;
  table : TableModel;
  spinner : Z;
  loading : bool;
  showHelp : bool;
  width : Z;
  height : Z;
  message : str;
  messageTimer : option Duration
}.

Definition keys_Kill : list str := ["delete" : str; "d" : str].
Definition keys_Quit : list str := ["q" : str; "ctrl+c" : str].
Definition keys_Help : list str := ["?" : str].
Definition keys_Reload : list str := ["r" : str].

(** [key.Matches] *)
Definition key_Matches (key : str) (binding : list str) : bool :=
  existsb (str_eqb key) binding.

Definition truncate (s : str) (max : Z) : str :=
  if len s <=? max then s else slice s 0 (max - 3) ++ "...".

(** The two marks that open a message, as UTF-8. *)
Definition cross_mark : str := map ascii_of_nat [226; 157; 140]%nat.
Definition check_mark : str := map ascii_of_nat [226; 156; 133]%nat.

Definition kill_failed_text (err : error) : str :=
  cross_mark ++ " Failed to kill process: " ++ error_text err.

Definition killed_text (proc : Process) : str :=
  check_mark ++ " Killed " ++ Name proc ++ " (PID: " ++ Itoa (PID proc) ++ ")".

Section ListView.

Variable formatDuration : Duration -> str.
Variable time_Since : Time -> Duration.
Variable table_nav : Msg -> TableModel -> Z.
Variable setrows_cursor : list Row -> Z -> Z.
Variable spinner_Update : Z -> Z.

Definition table_Update (msg : Msg) (t : TableModel) : TableModel :=
  {| rows := rows t; cursor := table_nav msg t;
     table_height := table_height t; table_width := table_width t |}.

Definition table_SetRows (r : list Row) (t : TableModel) : TableModel :=
  {| rows := r; cursor := setrows_cursor r (cursor t);
     table_height := table_height t; table_width := table_width t |}.

Definition table_SetSize (w h : Z) (t : TableModel) : TableModel :=
  {| rows := rows t; cursor := cursor t; table_height := h; table_width := w |}.

Definition processToRow (p : Process) : Row :=
  let projectPath :=
    if str_eqb (ProjectPath p) [] || str_eqb (ProjectPath p) "unknown"
    then "-" : str else ProjectPath p in
  let processType := if IsDocker p then "Docker" : str else "Native" : str in
  [ Itoa (Port p); Name p; Itoa (PID p); truncate projectPath 30;
    formatDuration (time_Since (StartTime p)); processType ].

Definition set_processes (ps : list Process) (m : ProcessListModel) : ProcessListModel :=
  {| processes := ps; table := table_SetRows (map processToRow ps) (table m);
     spinner := spinner m; loading := loading m; showHelp := showHelp m;
     width := width m; height := height m; message := message m;
     messageTimer := messageTimer m |}.

Definition set_table (t : TableModel) (m : ProcessListModel) : ProcessListModel :=
  {| processes := processes m; table := t;
     spinner := spinner m; loading := loading m; showHelp := showHelp m;
     width := width m; height := height m; message := message m;
     messageTimer := messageTimer m |}.

Definition set_message (text : str) (m : ProcessListModel) : ProcessListModel :=
  {| processes := processes m; table := table m;
     spinner := spinner m; loading := loading m; showHelp := showHelp m;
     width := width m; height := height m; message := text;
     messageTimer := messageTimer m |}.

Definition set_messageTimer (d : Duration) (m : ProcessListModel) : ProcessListModel :=
  {| processes := processes m; table := table m;
     spinner := spinner m; loading := loading m; showHelp := showHelp m;
     width := width m; height := height m; message := message m;
     messageTimer := Some d |}.

Definition set_loading (b : bool) (m : ProcessListModel) : ProcessListModel :=
  {| processes := processes m; table := table m;
     spinner := spinner m; loading := b; showHelp := showHelp m;
     width := width m; height := height m; message := message m;
     messageTimer := messageTimer m |}.

Definition set_showHelp (b : bool) (m : ProcessListModel) : ProcessListModel :=
  {| processes := processes m; table := table m;
     spinner := spinner m; loading := loading m; showHelp := b;
     width := width m; height := height m; message := message m;
     messageTimer := messageTimer m |}.

Definition set_size (w h : Z) (m : ProcessListModel) : ProcessListModel :=
  {| processes := processes m; table := table_SetSize (w - 4) (h - 10) (table m);
     spinner := spinner m; loading := loading m; showHelp := showHelp m;
     width := w; height := h; message := message m;
     messageTimer := messageTimer m |}.

Definition set_spinner (s : Z) (m : ProcessListModel) : ProcessListModel :=
  {| processes := processes m; table := table m;
     spinner := s; loading := loading m; showHelp := showHelp m;
     width := width m; height := height m; message := message m;
     messageTimer := messageTimer m |}.

(** The statements after the switch: the table sees the message too. *)
Definition finish (msg : Msg) (m : ProcessListModel) (cmds : list Cmd) (w : World)
    : outcome (ProcessListModel * list Cmd * World) :=
  Returns (set_table (table_Update msg (table m)) m, cmds ++ [table_Cmd], w).

(** The arm of the switch for the kill key. *)
Definition kill_selected (msg : Msg) (m : ProcessListModel) (w : World)
    : outcome (ProcessListModel * list Cmd * World) :=
  let at_cursor := cursor (table m) in
  if (0 <? Z.of_nat (length (processes m)))
     && (at_cursor <? Z.of_nat (length (processes m))) then
    if at_cursor <? 0 then Panics "index out of range"
    else
      match processes m !! Z.to_nat at_cursor with
      | None => Panics "index out of range"
      | Some proc =>
          let '(err, w) := Kill proc w in
          let m :=
            match err with
            | Some err => set_message (kill_failed_text err) m
            | None =>
                (* Remove from list *)
                set_processes (delete (Z.to_nat at_cursor) (processes m))
                              (set_message (killed_text proc) m)
            end in
          finish msg (set_messageTimer (3 * Second) m) [waitForTimer (3 * Second)] w
      end
  else finish msg m [] w.

Definition Update (m : ProcessListModel) (msg : Msg) (w : World)
    : outcome (ProcessListModel * list Cmd * World) :=
  match msg with
  | WindowSizeMsg width height => finish msg (set_size width height m) [] w
  | KeyMsg key =>
      if loading m then Returns (m, [], w)
      else if key_Matches key keys_Quit then Returns (m, [tea_Quit], w)
      else if key_Matches key keys_Help then
        finish msg (set_showHelp (negb (showHelp m)) m) [] w
      else if key_Matches key keys_Kill then kill_selected msg m w
      else if key_Matches key keys_Reload then
        finish msg (set_loading true m) [reloadProcesses] w
      else finish msg m [] w
  | processesLoadedMsg ps => finish msg (set_processes ps (set_loading false m)) [] w
  | timerExpiredMsg => finish msg (set_message [] m) [] w
  | spinner_TickMsg =>
      if loading m then finish msg (set_spinner (spinner_Update (spinner m)) m) [spinner_Cmd] w
      else finish msg m [] w
  | otherMsg => finish msg m [] w
  end.

End ListView.

End UI.

(** ** The rest of package ui

    [SimpleConfirm] reads the standard input line by line; the prompt it
    prints before each read is left out. *)

Module Plain.

(** A message printed by [ErrorMsg], [SuccessMsg] or [InfoMsg]: its kind
    and its text, without the mark and the line feed the printing function
    adds. *)
Inductive Report : Type :=
  | ErrorMsg (text : str)
  | SuccessMsg (text : str)
  | InfoMsg (text : str).

Definition truncateCommand (cmd : str) : str :=
  if 60 <? len cmd then slice cmd 0 57 ++ "..." else cmd.

(** What [ReadString] returns call after call on the standard input: the
    lines that end in a line feed, each with it; what is left of the input
    after the last line feed comes with the error of the end of the
    input. *)
Definition read_strings (stdin : str) : list str :=
  map (fun line => line ++ [newline]) (removelast (Split stdin newline)).

(** The loop of [SimpleConfirm] over the lines the reader returns. *)
Fixpoint confirm_loop (responses : list str) : bool :=
  match responses with
  | [] => false
  | response :: rest =>
      let response := ToLower (TrimSpace response) in
      if str_eqb response "y" || str_eqb response "yes" then true
      else if str_eqb response "n" || str_eqb response "no" then false
      else confirm_loop rest
  end.

Definition SimpleConfirm (stdin : str) : bool := confirm_loop (read_strings stdin).

(** What the reload command of the list view runs: the error of the
    listing is dropped, and the nil slice stands for it. *)
Definition reloadProcesses (ListAll : outcome (result (list Process))) : outcome UI.Msg :=
  listed ← ListAll;
  match listed with
  | Ok processes => Returns (UI.processesLoadedMsg processes)
  | Err _ => Returns (UI.processesLoadedMsg [])
  end.

(** [ShowProcessDetail]: the box with the details of the process is left
    out; what remains is the question and the kill. *)
Definition ShowProcessDetail (proc : Process) (interactive : bool) (stdin : str)
    (w : World) : list Report * World :=
  if interactive then
    if SimpleConfirm stdin then
      let '(err, w) := Kill proc w in
      match err with
      | Some err => ([ErrorMsg ("Failed to kill process: " ++ error_text err)], w)
      | None => ([SuccessMsg "Process killed successfully"], w)
      end
    else ([], w)
  else ([], w).

End Plain.

(** ** The commands of package main *)

Module Main.

(** How a command ends: it returns, or it leaves through [os.Exit]. *)
Inductive Ending : Type :=
  | Returned
  | Exited (code : Z).

Section Commands.

(** [FindByPort] of the finder the program is built with. *)
Variable FindByPort : Z -> outcome (result (option Process)).


(** Without an argument the command prints its help, which is left out. *)
Definition runPortCheck (args : list str) (stdin : str) (w : World)
    : outcome (Ending * list Plain.Report * World) :=
  match args with
  | [] => Returns (Returned, [], w)
  | arg :: _ =>
      match Atoi arg with
      | None => Returns (Exited 1, [Plain.ErrorMsg ("Invalid port number: " ++ arg)], w)
      | Some port =>
          found ← FindByPort port;
          match found with
          | Err err =>
              Returns (Exited 1,
                       [Plain.ErrorMsg ("Error checking port: " ++ error_text err)], w)
          | Ok None =>
              Returns (Returned, [Plain.SuccessMsg ("Port " ++ Itoa port ++ " is free!")], w)
          | Ok (Some proc) =>
              let '(reports, w) := Plain.ShowProcessDetail proc true stdin w in
              Returns (Returned, reports, w)
          end
      end
  end.

End Commands.

End Main.

(** ** Vocabulary of the statements *)

(** *** Paths by their elements *)

(** An ordinary path element: not empty, not [.] or [..], no slash. *)
Definition real_elem (e : str) : Prop :=
  e <> [] /\ e <> ("." : str) /\ e <> (".." : str) /\ "/"%char ∉ e.

Definition elem_ok (e : str) : Prop :=
  e <> [] /\ e <> ("." : str) /\ "/"%char ∉ e.

(** The elements of a cleaned path: ordinary ones, after leading [..]
    elements when the path is relative. *)
Definition clean_form (rooted : bool) (elems : list str) : Prop :=
  exists (k : nat) (oks : list str),
    elems = replicate k (".." : str) ++ oks /\ Forall real_elem oks /\
    (rooted = true -> k = 0%nat).

(** The elements of [filepath.Clean(cwd)]. *)
Definition path_elements (cwd : str) : list str :=
  clean_elems (isRooted cwd) [] 0 (Split cwd "/").

(** All prefixes of a list, shortest first. *)
Fixpoint prefixes {A} (l : list A) : list (list A) :=
  match l with
  | [] => [[]]
  | x :: l' => [] :: map (cons x) (prefixes l')
  end.

(** The directories from a path up to the root (or up to [.] for a
    relative path), nearest first. *)
Definition chain (rooted : bool) (elems : list str) : list str :=
  map (render rooted) (rev (prefixes elems)).

(** The same without the topmost one, unless the path is the topmost
    directory itself. *)
Definition walked (rooted : bool) (elems : list str) : list str :=
  match elems with
  | [] => [render rooted []]
  | _ => map (render rooted) (rev (tail (prefixes elems)))
  end.

Definition ancestor_chain (cwd : str) : list str :=
  chain (isRooted cwd) (path_elements cwd).

Definition walked_dirs (cwd : str) : list str :=
  walked (isRooted cwd) (path_elements cwd).

(** The two tests of the fall-back of [detectProject], on the elements. *)
Definition mentions_home (cwd : str) : bool :=
  Contains (filepath_Clean cwd) "home" || Contains (filepath_Clean cwd) "Users".

Definition deep_enough (cwd : str) : bool :=
  (if isRooted cwd then 4 else 5) <=? Z.of_nat (length (path_elements cwd)).

Definition last_element (cwd : str) : str :=
  match last (path_elements cwd) with
  | Some e => e
  | None => filepath_Clean cwd
  end.

(** Some element of the path is [home] or [Users]. *)
Definition under_home (cwd : str) : bool :=
  existsb (fun e => str_eqb e "home" || str_eqb e "Users") (path_elements cwd).

(** *** Container identifiers *)

Definition last_segment (line : str) : str :=
  match last (Split line "/") with
  | Some segment => segment
  | None => []
  end.

(** A cgroup line an identifier can be cut from. *)
Definition names_container (line : str) : bool :=
  Contains line "docker" && (12 <=? len (last_segment line)).

(** *** Records and keys *)

Definition pid_port (p : Process) : Z * Z := (PID p, Port p).

(** Every record of a process map sits under the key made of its pid and
    port. *)
Definition keyed (m : gmap str Process) : Prop :=
  forall k p, m !! k = Some p -> k = map_key (PID p) (Port p).

(** *** The kill sequence *)

(** The world once a SIGTERM has been delivered to [pid] and the grace
    period has passed. *)
Definition after_grace (pid : Z) (e : ProcEntry) (w : World) : World :=
  (time_Sleep grace_period
     (set_entry pid (deliver SIGTERM (clock w) e) (log (EvSignal pid SIGTERM) w))).2.

(** It is still there one grace period after a SIGTERM delivered at [now]. *)
Definition survives_grace (e : ProcEntry) (now : Time) : bool :=
  negb (gone_by (deliver SIGTERM now e) (now + grace_period)).

Definition is_force (pid : Z) (ev : SysEvent) : bool :=
  match ev with
  | EvSignal target SIGKILL => target =? pid
  | _ => false
  end.

(** A force-terminate of [pid] was issued. *)
Definition force_killed (w : World) (pid : Z) : bool :=
  existsb (is_force pid) (trace w).

(** ** Hosts and worlds of the examples *)

Definition text_lines (lines : list str) : str :=
  concat (map (fun l => l ++ [newline]) lines).

Definition assoc {K V : Type} `{EqDecision K} (k : K) (l : list (K * V)) : option V :=
  snd <$> find (fun kv => bool_decide (kv.1 = k)) l.

Definition not_there {A} : result A := Err (SysError "no such file or directory").

Definition an_instant : Time := 63839000000 * Second.

(** A host that answers the listed commands, holds the listed files and
    can stat the listed paths; everything else fails. *)
Definition host (commands : list (list str * str)) (files : list (str * str))
    (present : list str) : OS :=
  {| exec_Output := fun c =>
       match assoc c commands with
       | Some out => Ok out
       | None => Err (SysError "executable file not found in $PATH")
       end;
     os_ReadFile := fun p =>
       match assoc p files with Some text => Ok text | None => not_there end;
     os_Readlink := fun _ => not_there;
     os_Stat := fun p => if bool_decide (p ∈ present) then Ok an_instant else not_there;
     syscall_Sysinfo := Ok 7200;
     time_Now := an_instant;
     time_Parse := fun _ _ => Err (SysError "parsing time: cannot parse");
     time_Date := fun _ _ _ _ _ _ => an_instant |}.

Definition quoted (s : str) : str := [quote_byte] ++ s ++ [quote_byte].

Definition ss_header : str :=
  "Netid State  Recv-Q Send-Q Local Address:Port Peer Address:Port Process".

Definition ss_users (name : str) (pid fd : Z) : str :=
  "users:((" ++ quoted name ++ ",pid=" ++ Itoa pid ++ ",fd=" ++ Itoa fd ++ "))".

Definition ss_nginx_v4 : str :=
  "tcp   LISTEN 0      511    0.0.0.0:80         0.0.0.0:*         " ++ ss_users "nginx" 1234 6.

Definition ss_nginx_v6 : str :=
  "tcp   LISTEN 0      511    [::]:80            [::]:*            " ++ ss_users "nginx" 1234 7.

Definition ss_node_8080 : str :=
  "tcp   LISTEN 0      511    0.0.0.0:8080       0.0.0.0:*         " ++ ss_users "node" 4321 21.

Definition netstat_header : str :=
  "Proto Recv-Q Send-Q Local Address           Foreign Address         State       PID/Program name".

Definition netstat_node_8080 : str :=
  "tcp        0      0 0.0.0.0:8080            0.0.0.0:*               LISTEN      4321/node".

Definition ss_port_80 : list str := ["ss" : str; "-tulnp" : str; "sport = :80" : str].
Definition ss_all : list str := ["ss" : str; "-tulnp" : str].
Definition netstat_all : list str := ["netstat" : str; "-tulnp" : str].

(** ss still lists the listener on port 80, but its /proc entry is gone by
    the time the record is enriched. *)
Definition host_vanished : OS :=
  host [(ss_port_80, text_lines [ss_header; ss_nginx_v4])] [] [].

Definition proc_stat_nginx : str :=
  "1234 (nginx) S 1 1234 1234 0 -1 4194560 100 0 0 0 5 3 0 0 20 0 1 0 360000 10000000 500".

(** nginx listens on port 80 on both address families. *)
Definition host_dual_stack : OS :=
  host [(ss_all, text_lines [ss_header; ss_nginx_v4; ss_nginx_v6])]
       [("/proc/1234/comm" : str, text_lines ["nginx" : str]);
        ("/proc/1234/stat" : str, text_lines [proc_stat_nginx])]
       ["/proc/1234" : str].

(** Nothing listens on port 80; node listens on port 8080. *)
Definition host_other_port : OS :=
  host [(ss_port_80, text_lines [ss_header]);
        (ss_all, text_lines [ss_header; ss_node_8080]);
        (netstat_all, text_lines [netstat_header; netstat_node_8080])]
       [("/proc/4321/comm" : str, text_lines ["node" : str])]
       ["/proc/4321" : str].

(** Nothing listens on port 80 and netstat is not installed. *)
Definition host_without_netstat : OS :=
  host [(ss_port_80, text_lines [ss_header]);
        (ss_all, text_lines [ss_header; ss_node_8080])] [] [].

Definition ps_of (pid : Z) (columns : str) : list str :=
  ["ps" : str; "-p" : str; Itoa pid; "-o" : str; columns].

Definition lstart_text : str := "Thu Dec 28 10:30:45 2023".

Definition parse_lstart (layout value : str) : result Time :=
  if str_eqb layout Darwin.lstart_layout && str_eqb value lstart_text
  then Ok (63839356245 * Second)
  else Err (SysError "parsing time: cannot parse").

(** A macOS host: [answers] are the commands that work. *)
Definition mac_host (answers : list (list str * str)) : OS :=
  {| exec_Output := exec_Output (host answers [] []);
     os_ReadFile := fun _ => not_there;
     os_Readlink := fun _ => not_there;
     os_Stat := fun _ => not_there;
     syscall_Sysinfo := Err (SysError "not supported");
     time_Now := an_instant;
     time_Parse := parse_lstart;
     time_Date := fun _ _ _ _ _ _ => an_instant |}.

Definition lstart_answer : list str * str :=
  (ps_of 501 "lstart=", text_lines [lstart_text]).

Definition command_answer : list str * str :=
  (ps_of 501 "comm=,command=", text_lines ["node node server.js" : str]).

(** The first ps call fails, the start-time query would answer. *)
Definition mac_first_ps_fails : OS := mac_host [lstart_answer].

Definition mac_all_answer : OS := mac_host [command_answer; lstart_answer].

(** lsof on a host where node listens on port 3000 on both families. *)
Definition lsof_header : str :=
  "COMMAND   PID USER   FD   TYPE             DEVICE SIZE/OFF NODE NAME".
Definition lsof_node_v4 : str :=
  "node      501 u      23u  IPv4 0xabc0123456789def      0t0  TCP *:3000 (LISTEN)".
Definition lsof_node_v6 : str :=
  "node      501 u      24u  IPv6 0xabc0123456789dee      0t0  TCP *:3000 (LISTEN)".
Definition mac_dual_stack : OS :=
  mac_host [(["lsof" : str; "-i" : str; "-n" : str; "-P" : str],
             text_lines [lsof_header; lsof_node_v4; lsof_node_v6]);
            command_answer; lstart_answer].

(** A host on which only the listed paths exist. *)
Definition host_with_files (present : list str) : OS := host [] [] present.

(** A process of another user: signalling it is not permitted. *)
Definition world_foreign : World :=
  {| procs := {[ 77 := {| owned := false; on_term := Some 0; exit_at := None |} ]};
     clock := an_instant; find_error := None; trace := [] |}.

(** One's own process: [reaction] is the delay after which it exits once
    it gets a SIGTERM, or [None] when it ignores the signal. *)
Definition world_own (reaction : option Duration) : World :=
  {| procs := {[ 77 := {| owned := true; on_term := reaction; exit_at := None |} ]};
     clock := an_instant; find_error := None; trace := [] |}.

Definition process_77 : Process := new_Process 77 "sshd" 22.

Definition list_model (ps : list Process) (rs : list UI.Row) : UI.ProcessListModel :=
  {| UI.processes := ps;
     UI.table := {| UI.rows := rs; UI.cursor := 0; UI.table_height := 15;
                    UI.table_width := 80 |};
     UI.spinner := 0; UI.loading := false; UI.showHelp := false;
     UI.width := 84; UI.height := 25; UI.message := []; UI.messageTimer := None |}.

(** A cgroup file whose only container line ends in a short segment. *)
Definition cgroup_short : str := "1:name=systemd:/docker/abc".

Definition host_cgroup_short : OS :=
  host [] [("/proc/1/cgroup" : str, text_lines [cgroup_short])] [].

(** Stand-ins for the widget library in the examples of the list view. *)
Definition no_format (d : Duration) : str := [].
Definition no_since (t : Time) : Duration := 0.
Definition no_nav (msg : UI.Msg) (t : UI.TableModel) : Z := UI.cursor t.
Definition keep_cursor (rows : list UI.Row) (c : Z) : Z := c.
Definition no_spin (frame : Z) : Z := frame.

(** ** Vocabulary of the further statements *)

(** An event that concerns [pid], or a wait. *)
Definition about (pid : Z) (ev : SysEvent) : bool :=
  match ev with
  | EvSignal target _ => target =? pid
  | EvSleep _ => true
  end.

(** The start time computed from the text after the command name of the
    stat file, the uptime and the current time. *)
Definition start_time_from (os : OS) (rest : str) : result Time :=
  let fields := Fields rest in
  if len' fields <? 20 then Err (Errorf "not enough fields in stat")
  else
    match fields !! 19%nat ≫= Atoi with
    | None => Err (Errorf "strconv.ParseInt: parsing failed")
    | Some startTicks =>
        match syscall_Sysinfo os with
        | Err err => Err err
        | Ok uptime =>
            Ok (Time_Add (Time_Add (time_Now os) (wrap64 (wrap64 (- uptime) * Second)))
                  (wrap64 (Z.quot (wrap64 (startTicks * 1000)) 100 * Millisecond)))
        end
    end.

(** What follows [pid=] in the process field of an ss line. *)
Definition after_pid (pidProg : str) : str :=
  slice_from pidProg (Index pidProg "pid=" + 4).

(** What a line of lsof says when it is the line of a listener: the name,
    the pid and the port. *)
Definition lsof_listener (line : str) : option (str * Z * Z) :=
  let fields := Fields line in
  if len' fields <? 9 then None
  else if negb (Contains line "LISTEN") then None
  else
    match find_port_submatch "(LISTEN)" line ≫= Atoi, fields with
    | Some port, name :: pidText :: _ =>
        match Atoi pidText with
        | Some pid => Some (name, pid, port)
        | None => None
        end
    | _, _ => None
    end.

(** Whether a quote is open after [s], read from the state [inQuotes]. *)
Definition quote_state (s : str) (inQuotes : bool) : bool :=
  fold_left (fun q c => if Ascii.eqb c quote_byte then negb q else q) s inQuotes.

(** Whether [s], read from a position outside ([inQuotes] false) or inside
    quotes, holds a comma outside quotes. *)
Fixpoint unquoted_comma (inQuotes : bool) (s : str) : bool :=
  match s with
  | [] => false
  | c :: s' =>
      if Ascii.eqb c quote_byte then unquoted_comma (negb inQuotes) s'
      else if Ascii.eqb c "," then negb inQuotes || unquoted_comma inQuotes s'
      else unquoted_comma inQuotes s'
  end.

(** The fields, each followed by a comma. *)
Definition comma_terminated (fields : list str) : str :=
  concat (map (fun f => f ++ [","%char]) fields).

(** A row of the table shows the port and the pid of a process. *)
Definition shows (row : UI.Row) (p : Process) : Prop :=
  row !! 0%nat = Some (Itoa (Port p)) /\ row !! 2%nat = Some (Itoa (PID p)).

(** Row [i] of the table shows process [i] of the list. *)
Definition aligned (m : UI.ProcessListModel) : Prop :=
  Forall2 shows (UI.rows (UI.table m)) (UI.processes m).

(** The line says yes. *)
Definition says_yes (response : str) : bool :=
  str_eqb (ToLower (TrimSpace response)) "y"
  || str_eqb (ToLower (TrimSpace response)) "yes".

(** *** Further hosts *)

Definition lsof_all : list str := ["lsof" : str; "-i" : str; "-n" : str; "-P" : str].

Definition win_netstat : list str :=
  ["netstat" : str; "-ano" : str; "-p" : str; "tcp" : str].

Definition win_netstat_node : str :=
  "  TCP    0.0.0.0:3000           0.0.0.0:0              LISTENING       4242".

Definition ss_port_22 : list str := ["ss" : str; "-tulnp" : str; "sport = :22" : str].

Definition ss_sshd : str :=
  "tcp   LISTEN 0      128    0.0.0.0:22         0.0.0.0:*         " ++ ss_users "sshd" 77 3.

(** sshd, pid 77, listens on port 22. *)
Definition host_sshd : OS := host [(ss_port_22, text_lines [ss_header; ss_sshd])] [] [].

(** * Properties *)

(** ** The library models on sample inputs *)

Example Clean_samples :
  map filepath_Clean
      ["/a/b/../c/" : str; "a//b/./c" : str; "../../a" : str; "a/.." : str;
       "/.." : str; "//" : str; "a/b/../../../c" : str; "/home/u/app" : str]
  = ["/a/c" : str; "a/b/c" : str; "../../a" : str; "." : str;
     "/" : str; "/" : str; "../c" : str; "/home/u/app" : str].
Proof. vm_compute. reflexivity. Qed.

Example Dir_Base_samples :
  map filepath_Dir ["/a/b/c" : str; "/a" : str; "/" : str; "a" : str; "../a" : str]
  = ["/a/b" : str; "/" : str; "/" : str; "." : str; ".." : str]
  /\ map filepath_Base ["/a/b/c" : str; "/" : str; "a/b/" : str; "." : str]
     = ["c" : str; "/" : str; "b" : str; "." : str]
  /\ filepath_Join ["/home/u" : str; ".git" : str] = ("/home/u/.git" : str)
  /\ filepath_Join ["/" : str; ".git" : str] = ("/.git" : str).
Proof. vm_compute. repeat split. Qed.

Example Atoi_samples :
  map Atoi ["1234" : str; "-15" : str; "+7" : str; "" : str; "-" : str; "12a" : str;
            "9223372036854775807" : str; "9223372036854775808" : str]
  = [Some 1234; Some (-15); Some 7; None; None; None;
     Some 9223372036854775807; None].
Proof. vm_compute. reflexivity. Qed.

Example strings_samples :
  Split "[::]:80" ":" = ["[" : str; [] ; "]" : str; "80" : str]
  /\ Fields "  tcp   LISTEN 0 " = ["tcp" : str; "LISTEN" : str; "0" : str]
  /\ TrimSpace "  a b  " = ("a b" : str)
  /\ Index "users:((pid=12,fd=3))" "pid=" = 8
  /\ LastIndex "7 (a) b) S 1" ")" = 7
  /\ Itoa (-15) = ("-15" : str)
  /\ SplitN2 "node node server.js" " " = ["node" : str; "node server.js" : str].
Proof. vm_compute. repeat split. Qed.

Example regexp_samples :
  find_port_submatch "(LISTEN)" "node 501 u 23u IPv4 0xabc 0t0 TCP *:3000 (LISTEN)"
    = Some ("3000" : str)
  /\ find_port_submatch "(LISTEN)" "node 501 u 23u IPv6 0xabc 0t0 TCP [::1]:3000 (LISTEN)"
    = Some ("3000" : str)
  /\ find_port_submatch [] "0.0.0.0:3000" = None
  /\ match_text_space ":80" "  TCP    0.0.0.0:80     0.0.0.0:0    LISTENING   4" = true
  /\ match_text_space ":80" "  TCP    0.0.0.0:8080   0.0.0.0:0    LISTENING   4" = false.
Proof. vm_compute. repeat split. Qed.

Example getProcessStartTime_sample :
  Linux.getProcessStartTime host_dual_stack 1234 = Ok (an_instant - 3600 * Second).
Proof. vm_compute. reflexivity. Qed.

(** ** Byte strings and paths *)

Lemma is_sep_true c : is_sep c = true <-> c = "/"%char.
Proof. unfold is_sep. apply Ascii.eqb_eq. Qed.

Lemma is_sep_false c : is_sep c = false <-> c <> "/"%char.
Proof. unfold is_sep. apply Ascii.eqb_neq. Qed.

Lemma str_eqb_true a b : str_eqb a b = true <-> a = b.
Proof. unfold str_eqb. apply bool_decide_eq_true. Qed.

Lemma str_eqb_false a b : str_eqb a b = false <-> a <> b.
Proof. unfold str_eqb. apply bool_decide_eq_false. Qed.

Lemma Split_nonempty s c : Split s c <> [].
Proof. destruct s as [|a s]; simpl; [done|]. destruct (Ascii.eqb a c); [done|]. by destruct (Split s c). Qed.

Lemma Split_free s c : c ∉ s -> Split s c = [s].
Proof.
  induction s as [|a s IH]; intros Hc; simpl; [done|].
  apply not_elem_of_cons in Hc as [Hne Hc].
  destruct (Ascii.eqb_spec a c) as [->|_]; [done|].
  by rewrite IH.
Qed.

Lemma Split_app_sep a b c : c ∉ a -> Split (a ++ c :: b) c = a :: Split b c.
Proof.
  induction a as [|x a IH]; intros Hc; simpl.
  - by rewrite Ascii.eqb_refl.
  - apply not_elem_of_cons in Hc as [Hne Hc].
    destruct (Ascii.eqb_spec x c) as [->|_]; [done|].
    by rewrite IH.
Qed.

Lemma Split_elems_free s c : Forall (fun e => c ∉ e) (Split s c).
Proof.
  induction s as [|a s IH]; simpl.
  - repeat constructor. apply not_elem_of_nil.
  - destruct (Ascii.eqb_spec a c) as [->|Hne].
    + constructor; [apply not_elem_of_nil | done].
    + destruct (Split s c) as [|w ws]; [repeat constructor|].
      * apply not_elem_of_cons; split; [auto | apply not_elem_of_nil].
      * inversion IH; subst. constructor; [|done].
        apply not_elem_of_cons; split; auto.
Qed.

Lemma Join_cons e l sep : l <> [] -> Join (e :: l) sep = e ++ sep ++ Join l sep.
Proof. by destruct l. Qed.

Lemma Join_snoc l e sep : l <> [] -> Join (l ++ [e]) sep = Join l sep ++ sep ++ e.
Proof.
  induction l as [|x l IH]; [done|]. intros _.
  destruct l as [|y l]; [done|].
  change ((x :: y :: l) ++ [e]) with (x :: ((y :: l) ++ [e])).
  rewrite Join_cons by done. rewrite IH by done.
  rewrite (Join_cons x (y :: l)) by done.
  by rewrite <- !app_assoc.
Qed.

Lemma Split_Join l c : Forall (fun e => c ∉ e) l -> l <> [] -> Split (Join l [c]) c = l.
Proof.
  induction l as [|e l IH]; [done|]. intros Hall _.
  inversion Hall as [|? ? He Hl]; subst.
  destruct l as [|y l].
  - simpl. by apply Split_free.
  - rewrite Join_cons by done.
    change (e ++ [c] ++ Join (y :: l) [c]) with (e ++ c :: Join (y :: l) [c]).
    rewrite Split_app_sep by done. by rewrite IH.
Qed.


Lemma real_elem_tests e :
  real_elem e ->
  str_eqb e [] = false /\ str_eqb e ["."%char] = false
  /\ str_eqb e ["."%char; "."%char] = false.
Proof. intros (?&?&?&?). by rewrite !str_eqb_false. Qed.

Lemma clean_elems_real r oks out d :
  Forall real_elem oks -> clean_elems r out d oks = rev out ++ oks.
Proof.
  intros Hall. revert out d.
  induction Hall as [|e oks He _ IH]; intros out d; simpl.
  - by rewrite app_nil_r.
  - destruct (real_elem_tests e He) as (-> & -> & ->). simpl.
    rewrite IH. simpl. by rewrite <- app_assoc.
Qed.

Lemma replicate_snoc {A} (x : A) k l : replicate k x ++ x :: l = x :: replicate k x ++ l.
Proof. induction k as [|k IH]; simpl; [done|]. by rewrite IH. Qed.

Lemma rev_replicate {A} (x : A) k : rev (replicate k x) = replicate k x.
Proof.
  induction k as [|k IH]; simpl; [done|]. rewrite IH.
  change (replicate k x ++ [x] = x :: replicate k x ++ []) || idtac.
  rewrite replicate_snoc. by rewrite app_nil_r.
Qed.

Lemma clean_elems_dotdots k out rest :
  clean_elems false out 0 (replicate k (".." : str) ++ rest)
  = clean_elems false (replicate k (".." : str) ++ out) 0 rest.
Proof.
  revert out. induction k as [|k IH]; intros out; [done|].
  cbn [replicate app]. 
  change (clean_elems false out 0 ((".." : str) :: (replicate k (".." : str) ++ rest)))
    with (clean_elems false ((".." : str) :: out) 0 (replicate k (".." : str) ++ rest)).
  rewrite IH. by rewrite replicate_snoc.
Qed.

Lemma clean_elems_fixed r l : clean_form r l -> clean_elems r [] 0 l = l.
Proof.
  intros (k & oks & -> & Hoks & Hk).
  destruct r.
  - rewrite Hk by done. simpl. by rewrite clean_elems_real.
  - rewrite clean_elems_dotdots, clean_elems_real by done.
    by rewrite app_nil_r, rev_replicate.
Qed.

Lemma clean_elems_skip_empty r t l out d :
  Forall (fun e => e = []) t -> clean_elems r out d (l ++ t) = clean_elems r out d l.
Proof.
  intros Ht. revert out d. induction l as [|e l IH]; intros out d.
  - simpl. induction Ht as [|e t -> _ IHt]; [done|]. exact IHt.
  - simpl. repeat case_match; apply IH.
Qed.

Lemma clean_elems_form r l roks k :
  Forall (fun e => "/"%char ∉ e) l -> Forall real_elem roks ->
  (r = true -> k = 0%nat) ->
  clean_form r (clean_elems r (roks ++ replicate k (".." : str)) (length roks) l).
Proof.
  intros Hl. revert roks k.
  induction Hl as [|e l He _ IH]; intros roks k Hroks Hk.
  - simpl. exists k, (rev roks). split; [|split; [|done]].
    + by rewrite rev_app_distr, rev_replicate.
    + by apply Forall_rev.
  - cbn [clean_elems].
    destruct (str_eqb e []) eqn:E1; cbn [orb]; [by apply IH|].
    destruct (str_eqb e ".") eqn:E2; [by apply IH|].
    destruct (str_eqb e "..") eqn:E3.
    + apply str_eqb_true in E3 as ->.
      destruct roks as [|x roks]; cbn [length app].
      * destruct r; [by apply (IH [])|].
        apply (IH [] (S k)); [done|done].
      * inversion Hroks; subst. by apply IH.
    + apply (IH (e :: roks)); [|done].
      constructor; [|done].
      apply str_eqb_false in E1, E2, E3. done.
Qed.

Lemma path_elements_form cwd : clean_form (isRooted cwd) (path_elements cwd).
Proof.
  apply (clean_elems_form _ _ [] 0%nat); [apply Split_elems_free|done|done].
Qed.

Lemma real_elem_ok e : real_elem e -> elem_ok e.
Proof. intros (?&?&?&?). done. Qed.

Lemma dotdot_ok : elem_ok ["."%char; "."%char].
Proof.
  split; [done|]. split; [done|].
  intros H. apply elem_of_cons in H as [H|H]; [done|].
  apply elem_of_cons in H as [H|H]; [done|]. by apply elem_of_nil in H.
Qed.

Lemma clean_form_elem_ok r l : clean_form r l -> Forall elem_ok l.
Proof.
  intros (k & oks & -> & Hoks & _). apply Forall_app. split.
  - apply Forall_replicate, dotdot_ok.
  - eapply Forall_impl; [exact Hoks|]. apply real_elem_ok.
Qed.

Lemma clean_form_take r l n : clean_form r l -> clean_form r (take n l).
Proof.
  intros (k & oks & -> & Hoks & Hk).
  exists (min n k), (take (n - k) oks). split; [|split].
  - rewrite take_app, take_replicate, length_replicate. done.
  - by apply Forall_take.
  - intros Hr. rewrite Hk by done. lia.
Qed.

Lemma clean_form_drop r l n : clean_form r l -> clean_form false (drop n l).
Proof.
  intros (k & oks & -> & Hoks & Hk).
  exists (k - n)%nat, (drop (n - k) oks). split; [|split; [|done]].
  - rewrite drop_app, drop_replicate, length_replicate. done.
  - by apply Forall_drop.
Qed.

Lemma clean_form_init r l x : clean_form r (l ++ [x]) -> clean_form r l.
Proof.
  intros H. apply (clean_form_take _ _ (length l)) in H.
  by rewrite take_app_length in H.
Qed.

Lemma Join_starts l t :
  Forall elem_ok l -> l <> [] ->
  Join (l ++ t) ["/"%char] <> [] /\ isRooted (Join (l ++ t) ["/"%char]) = false.
Proof.
  intros Hl Hne. destruct l as [|e l]; [done|].
  inversion Hl as [|? ? (He1 & _ & He2) _]; subst.
  destruct e as [|c e]; [done|].
  apply not_elem_of_cons in He2 as [Hc _].
  assert (is_sep c = false) as Hs by (apply is_sep_false; congruence).
  rewrite <- app_comm_cons.
  destruct (l ++ t) as [|y lt] eqn:E.
  - simpl. done.
  - rewrite Join_cons by done. simpl. done.
Qed.

Lemma Forall_empty_free (t : list str) :
  Forall (fun e => e = []) t -> Forall (fun e => "/"%char ∉ e) t.
Proof. intros H. eapply Forall_impl; [exact H|]. intros e ->. apply not_elem_of_nil. Qed.

Lemma elem_ok_free l : Forall elem_ok l -> Forall (fun e => "/"%char ∉ e) l.
Proof. intros H. eapply Forall_impl; [exact H|]. by intros e (_&_&?). Qed.

Lemma Clean_rooted s :
  filepath_Clean ("/"%char :: s) = render true (clean_elems true [] 0 (Split s "/")).
Proof. reflexivity. Qed.

(** Cleaning the text of a cleaned path, with or without a trailing slash. *)
Lemma Clean_of_elems r l t :
  clean_form r l -> l <> [] -> Forall (fun e => e = []) t ->
  filepath_Clean ((if r then ["/"%char] else []) ++ Join (l ++ t) ["/"%char])
  = render r l.
Proof.
  intros Hform Hne Ht.
  pose proof (clean_form_elem_ok _ _ Hform) as Hok.
  destruct (Join_starts l t Hok Hne) as [Hj Hroot].
  assert (Split (Join (l ++ t) ["/"%char]) "/" = l ++ t) as Hsplit.
  { apply Split_Join.
    - apply Forall_app. split; [by apply elem_ok_free | by apply Forall_empty_free].
    - by destruct l. }
  destruct r.
  - change (["/"%char] ++ Join (l ++ t) ["/"%char])
      with ("/"%char :: Join (l ++ t) ["/"%char]).
    rewrite Clean_rooted, Hsplit.
    rewrite clean_elems_skip_empty by done.
    by rewrite clean_elems_fixed.
  - cbn [app]. unfold filepath_Clean.
    destruct (Join (l ++ t) ["/"%char]) as [|c s] eqn:E; [done|].
    rewrite Hroot, Hsplit.
    rewrite clean_elems_skip_empty by done.
    by rewrite clean_elems_fixed.
Qed.

Lemma render_text r l :
  l <> [] -> render r l = (if r then ["/"%char] else []) ++ Join l ["/"%char].
Proof. intros Hne. destruct r; [done|]. by destruct l. Qed.

Lemma Clean_render r l : clean_form r l -> filepath_Clean (render r l) = render r l.
Proof.
  intros Hform. destruct l as [|e l].
  - by destruct r.
  - rewrite render_text by done.
    rewrite <- (app_nil_r (e :: l)) at 1.
    rewrite Clean_of_elems by done.
    by rewrite render_text.
Qed.

Lemma trim_left_all f s t :
  Forall (fun c => f c = true) s -> trim_left f (s ++ t) = trim_left f t.
Proof. induction 1 as [|c s Hc _ IH]; simpl; [done|]. by rewrite Hc. Qed.

Lemma free_nonsep x :
  "/"%char ∉ x -> Forall (fun c => negb (is_sep c) = true) (rev x).
Proof.
  intros Hx. apply Forall_rev. apply Forall_forall. intros c Hc.
  apply negb_true_iff, is_sep_false. by intros ->.
Qed.

Lemma upto_last_sep_app P x :
  "/"%char ∉ x -> upto_last_sep (P ++ "/"%char :: x) = P ++ ["/"%char].
Proof.
  intros Hx. unfold upto_last_sep, trim_right.
  rewrite rev_app_distr. cbn [rev]. rewrite <- !app_assoc.
  rewrite trim_left_all by by apply free_nonsep.
  cbn. by rewrite rev_involutive.
Qed.

Lemma upto_last_sep_free x : "/"%char ∉ x -> upto_last_sep x = [].
Proof.
  intros Hx. unfold upto_last_sep, trim_right.
  rewrite <- (app_nil_r (rev x)).
  by rewrite trim_left_all by by apply free_nonsep.
Qed.

Lemma clean_form_last_ok r l x : clean_form r (l ++ [x]) -> elem_ok x.
Proof.
  intros H. apply clean_form_elem_ok in H.
  apply Forall_app in H as [_ H]. by inversion H.
Qed.

(** One step up from a cleaned path drops its last element. *)
Lemma Dir_render r l x :
  clean_form r (l ++ [x]) -> filepath_Dir (render r (l ++ [x])) = render r l.
Proof.
  intros Hform. unfold filepath_Dir.
  destruct (clean_form_last_ok _ _ _ Hform) as (Hx1 & Hx2 & Hx3).
  destruct l as [|e l].
  - destruct r; cbn [app render Join].
    + change ("/" ++ x) with ([] ++ "/"%char :: x).
      by rewrite upto_last_sep_app.
    + destruct x as [|c x]; [done|]. by rewrite upto_last_sep_free.
  - rewrite render_text by (by destruct l).
    rewrite Join_snoc by done.
    change ((if r then ["/"%char] else []) ++ Join (e :: l) ["/"%char] ++ ["/"%char] ++ x)
      with ((if r then ["/"%char] else []) ++ Join (e :: l) ["/"%char] ++ "/"%char :: x).
    rewrite app_assoc, upto_last_sep_app by done.
    rewrite <- app_assoc.
    change (Join (e :: l) ["/"%char] ++ ["/"%char])
      with (Join (e :: l) ["/"%char] ++ ["/"%char] ++ []).
    rewrite <- Join_snoc by done.
    apply Clean_of_elems; [|done|by repeat constructor].
    by apply clean_form_init in Hform.
Qed.


Lemma prefixes_snoc {A} (l : list A) x : prefixes (l ++ [x]) = prefixes l ++ [l ++ [x]].
Proof.
  induction l as [|y l IH]; [done|].
  cbn [app prefixes]. rewrite IH, map_app. done.
Qed.

Lemma prefixes_head {A} (l : list A) : exists ps, prefixes l = [] :: ps.
Proof. destruct l; simpl; eauto. Qed.

Lemma walked_snoc r l x :
  l <> [] ->
  walked r (l ++ [x]) = render r (l ++ [x]) :: walked r l.
Proof.
  intros Hne. unfold walked.
  destruct (l ++ [x]) as [|y l'] eqn:E; [by destruct l|]. rewrite <- E.
  destruct l as [|z l]; [done|].
  rewrite prefixes_snoc.
  destruct (prefixes_head (z :: l)) as [ps ->].
  cbn [tail app]. rewrite rev_app_distr. done.
Qed.

Lemma walked_single r x : walked r [x] = [render r [x]].
Proof. done. Qed.

Lemma Join_length l sep :
  Forall elem_ok l -> (length l <= length (Join l sep) + 0)%nat.
Proof.
  induction 1 as [|e l (He & _) Hl IH]; [simpl; lia|].
  destruct l as [|y l].
  - destruct e; [done|]. simpl. lia.
  - rewrite Join_cons by done. rewrite !length_app.
    destruct e; [done|]. cbn [length] in *. lia.
Qed.

Lemma render_length r l : clean_form r l -> (length l <= length (render r l))%nat.
Proof.
  intros H. apply clean_form_elem_ok in H.
  pose proof (Join_length l ["/"%char] H).
  destruct l as [|e l]; [simpl; lia|].
  rewrite render_text by done. rewrite length_app. lia.
Qed.

Lemma render_parent_guards r l x :
  clean_form r (l ++ [x]) -> l <> [] ->
  str_eqb (render r l) (render r (l ++ [x])) = false
  /\ str_eqb (render r l) ("/" : str) = false
  /\ str_eqb (render r l) ("." : str) = false.
Proof.
  intros Hform Hne.
  pose proof (clean_form_init _ _ _ Hform) as Hl.
  pose proof (clean_form_elem_ok _ _ Hl) as Hok.
  destruct (Join_starts l [] Hok Hne) as [Hj Hroot].
  rewrite app_nil_r in Hj, Hroot.
  rewrite !str_eqb_false.
  rewrite (render_text r (l ++ [x])) by (by destruct l).
  rewrite (render_text r l) by done.
  split; [|split].
  - intros Heq. apply app_inv_head in Heq.
    rewrite Join_snoc in Heq by done.
    apply (f_equal length) in Heq. rewrite !length_app in Heq. simpl in Heq. lia.
  - destruct r; cbn [app].
    + intros Heq. by injection Heq.
    + intros Heq. by rewrite Heq in Hroot.
  - destruct r; cbn [app]; [done|].
    destruct l as [|e l]; [done|].
    inversion Hok as [|? ? (He1 & He2 & _) _]; subst.
    destruct l as [|y l]; [done|].
    rewrite Join_cons by done. intros Heq.
    apply (f_equal length) in Heq. rewrite !length_app in Heq.
    destruct e; [done|]. simpl in Heq. lia.
Qed.

Lemma walk_up_top os r fuel :
  walk_up (S fuel) os (render r [])
  = if has_indicator os (render r []) then Found (render r []) else NoMarker.
Proof. destruct r; reflexivity. Qed.

(** The loop visits the non-empty prefixes of the elements, longest first. *)
Lemma walk_up_render os r l fuel :
  clean_form r l -> l <> [] -> (length l <= fuel)%nat ->
  walk_up fuel os (render r l)
  = match find (has_indicator os) (walked r l) with
    | Some d => Found d
    | None => NoMarker
    end.
Proof.
  revert fuel. induction l as [|x l IH] using rev_ind; [done|].
  intros fuel Hform _ Hfuel. rewrite length_app in Hfuel. 
  destruct fuel as [|fuel]; [simpl in Hfuel; lia|]. simpl in Hfuel.
  cbn [walk_up]. rewrite Dir_render by done.
  destruct l as [|y l].
  - cbn [app]. rewrite walked_single. cbn [find].
    destruct (has_indicator os (render r [x])); [done|].
    destruct r; destruct (str_eqb _ _); reflexivity.
  - rewrite walked_snoc by done. cbn [find].
    destruct (has_indicator os (render r ((y :: l) ++ [x]))); [done|].
    destruct (render_parent_guards r (y :: l) x Hform) as (-> & -> & ->); [done|].
    cbn [orb]. apply IH; [by apply clean_form_init in Hform|done|lia].
Qed.

Lemma Clean_elements cwd :
  cwd <> [] -> filepath_Clean cwd = render (isRooted cwd) (path_elements cwd).
Proof. by destruct cwd. Qed.

Lemma walk_up_walked os cwd :
  cwd <> [] ->
  walk_up (S (length (filepath_Clean cwd))) os (filepath_Clean cwd)
  = match find (has_indicator os) (walked_dirs cwd) with
    | Some d => Found d
    | None => NoMarker
    end.
Proof.
  intros Hne. rewrite Clean_elements by done. unfold walked_dirs.
  pose proof (path_elements_form cwd) as Hform.
  destruct (path_elements cwd) as [|e l] eqn:E.
  - rewrite walk_up_top. cbn [walked find]. by case_match.
  - apply walk_up_render; [done|done|].
    pose proof (render_length _ _ Hform). lia.
Qed.

(** The fuel of [detectProject] is never used up. *)
Lemma walk_up_fuel os cwd :
  cwd <> [] ->
  walk_up (S (length (filepath_Clean cwd))) os (filepath_Clean cwd) <> OutOfFuel.
Proof. intros Hne. rewrite walk_up_walked by done. by case_match. Qed.

Lemma detectProject_walk os pid cwd :
  cwd <> [] ->
  detectProject os pid cwd
  = match find (has_indicator os) (walked_dirs cwd) with
    | Some d => d
    | None => detectProject_fallback (filepath_Clean cwd)
    end.
Proof.
  intros Hne. unfold detectProject. destruct cwd as [|c cwd]; [done|].
  rewrite walk_up_walked by done.
  by destruct (find _ _).
Qed.


Lemma Split_render r l :
  clean_form r l -> l <> [] ->
  Split (render r l) "/" = (if r then [[]] else []) ++ l.
Proof.
  intros Hform Hne. rewrite render_text by done.
  pose proof (clean_form_elem_ok _ _ Hform) as Hok.
  assert (Split (Join l ["/"%char]) "/" = l) as Hs
    by (apply Split_Join; [by apply elem_ok_free|done]).
  destruct r; cbn [app].
  - change (Split ("/"%char :: Join l ["/"%char]) "/")
      with ([] :: Split (Join l ["/"%char]) "/").
    by rewrite Hs.
  - done.
Qed.

Lemma trim_left_stop f c s : f c = false -> trim_left f (c :: s) = c :: s.
Proof. intros H. simpl. by rewrite H. Qed.

Lemma Base_nonempty p :
  p <> [] ->
  filepath_Base p
  = match drop (length (upto_last_sep (trim_right is_sep p))) (trim_right is_sep p) with
    | [] => ["/"%char]
    | base => base
    end.
Proof. by destruct p. Qed.

Lemma Base_render r l x :
  clean_form r (l ++ [x]) -> filepath_Base (render r (l ++ [x])) = x.
Proof.
  intros Hform.
  destruct (clean_form_last_ok _ _ _ Hform) as (Hx1 & Hx2 & Hx3).
  assert (exists P, render r (l ++ [x]) = P ++ x
                    /\ (P = [] \/ exists P', P = P' ++ ["/"%char])) as (P & HP & HPs).
  { destruct l as [|e l].
    - destruct r; cbn [app render Join].
      + exists ["/"%char]. split; [done|]. right. by exists [].
      + exists []. split; [by destruct x|]. by left.
    - rewrite render_text by (by destruct l). rewrite Join_snoc by done.
      exists ((if r then ["/"%char] else []) ++ Join (e :: l) ["/"%char] ++ ["/"%char]).
      split; [by rewrite <- !app_assoc|].
      right. eexists. by rewrite app_assoc. }
  rewrite HP. rewrite Base_nonempty by (by destruct P, x).
  destruct (rev x) as [|c rx] eqn:Erx.
  { apply (f_equal (@rev _)) in Erx. rewrite rev_involutive in Erx. done. }
  assert (is_sep c = false) as Hc.
  { apply is_sep_false. intros ->. apply Hx3.
    apply list_elem_of_In, in_rev. rewrite Erx. by left. }
  assert (trim_right is_sep (P ++ x) = P ++ x) as ->.
  { unfold trim_right. rewrite rev_app_distr, Erx. cbn [app].
    rewrite trim_left_stop by done.
    change (c :: rx ++ rev P) with ((c :: rx) ++ rev P).
    by rewrite <- Erx, <- rev_app_distr, rev_involutive. }
  assert (upto_last_sep (P ++ x) = P) as ->.
  { destruct HPs as [->|[P' ->]].
    - by apply upto_last_sep_free.
    - rewrite <- app_assoc. cbn [app]. by apply upto_last_sep_app. }
  rewrite drop_app_length. by destruct x.
Qed.

Lemma Join_clean_form t :
  clean_form false t -> t <> [] -> filepath_Join t = Join t ["/"%char].
Proof.
  intros Hform Hne. destruct t as [|e t]; [done|].
  pose proof (clean_form_elem_ok _ _ Hform) as Hok.
  inversion Hok as [|? ? (He & _) _]; subst.
  cbn [filepath_Join]. destruct e as [|c e]; [done|].
  change (filepath_Clean (render false ((c :: e) :: t)) = render false ((c :: e) :: t)).
  by apply Clean_render.
Qed.

Lemma last_two_app (pre l : list str) :
  (2 <= length l)%nat -> last_two (pre ++ l) = last_two l.
Proof.
  intros H. unfold last_two. rewrite length_app.
  rewrite drop_app.
  replace (length pre + length l - 2 - length pre)%nat with (length l - 2)%nat by lia.
  rewrite drop_ge by lia. done.
Qed.

Lemma last_snoc' {A} (l : list A) x : last (l ++ [x]) = Some x.
Proof. apply last_snoc. Qed.

(** What the fall-back returns, in terms of the elements of the path. *)
Lemma detectProject_fallback_elements cwd :
  cwd <> [] ->
  detectProject_fallback (filepath_Clean cwd)
  = if mentions_home cwd && deep_enough cwd
    then Join (last_two (path_elements cwd)) "/"
    else last_element cwd.
Proof.
  intros Hne. unfold mentions_home, deep_enough, last_element, detectProject_fallback.
  rewrite Clean_elements by done.
  pose proof (path_elements_form cwd) as Hform.
  set (r := isRooted cwd) in *. set (l := path_elements cwd) in *.
  destruct (Contains (render r l) "home" || Contains (render r l) "Users") eqn:Eh;
    cbn [andb].
  2: { destruct l as [|e l0] using rev_ind; [by destruct r|].
       rewrite last_snoc. by apply Base_render. }
  destruct l as [|e l0 _] using rev_ind; [by destruct r|].
  rewrite Split_render by (done || by destruct l0).
  rewrite length_app.
  destruct ((if r then 4 else 5) <=? Z.of_nat (length (l0 ++ [e]))) eqn:Ed.
  - apply Z.leb_le in Ed.
    assert (4 <= length (l0 ++ [e]))%nat as H4 by (destruct r; lia).
    replace (4 <? Z.of_nat (length (if r then [[]] else []) + length (l0 ++ [e])))
      with true
      by (symmetry; apply Z.ltb_lt; clearbody r; destruct r; simpl length; lia).
    rewrite last_two_app by lia.
    apply Join_clean_form.
    + unfold last_two. by apply (clean_form_drop r).
    + unfold last_two. intros Hd. apply (f_equal length) in Hd.
      rewrite length_drop in Hd. simpl in Hd. lia.
  - apply Z.leb_gt in Ed.
    replace (4 <? Z.of_nat (length (if r then [[]] else []) + length (l0 ++ [e])))
      with false
      by (symmetry; apply Z.ltb_ge; clearbody r; destruct r; simpl length; lia).
    rewrite last_snoc. by apply Base_render.
Qed.

Lemma find_first {A} (f : A -> bool) before d after :
  Forall (fun x => f x = false) before -> f d = true ->
  find f (before ++ d :: after) = Some d.
Proof.
  induction 1 as [|x before Hx _ IH]; intros Hd; simpl.
  - by rewrite Hd.
  - rewrite Hx. by apply IH.
Qed.

Lemma find_none {A} (f : A -> bool) l :
  Forall (fun x => f x = false) l -> find f l = None.
Proof. induction 1 as [|x l Hx _ IH]; simpl; [done|]. by rewrite Hx. Qed.

Lemma clean_form_snoc r l m : clean_form r l -> real_elem m -> clean_form r (l ++ [m]).
Proof.
  intros (k & oks & -> & Hoks & Hk) Hm.
  exists k, (oks ++ [m]). split; [by rewrite app_assoc|]. split; [|done].
  apply Forall_app. by split; [|constructor].
Qed.

(** The file looked for in a directory: one more element on its path. *)
Lemma Join_render r l m :
  clean_form r l -> real_elem m ->
  filepath_Join [render r l; m] = render r (l ++ [m]).
Proof.
  intros Hform Hm.
  pose proof (clean_form_snoc _ _ _ Hform Hm) as Hform'.
  destruct l as [|e l].
  - pose proof Hm as (Hm1 & _ & _ & Hm4).
    destruct r; cbn [render Join app filepath_Join].
    + change (filepath_Clean ("/"%char :: "/"%char :: m) = "/"%char :: m).
      rewrite Clean_rooted.
      change (Split ("/"%char :: m) "/") with ([] :: Split m "/").
      rewrite Split_free by done.
      change (clean_elems true [] 0 [[]; m]) with (clean_elems true [] 0 [m]).
      by rewrite clean_elems_real by (constructor; [done|constructor]).
    + change (filepath_Clean ("."%char :: "/"%char :: m) = m).
      unfold filepath_Clean. cbn [isRooted].
      change (Split ("."%char :: "/"%char :: m) "/") with (["."%char] :: Split m "/").
      rewrite Split_free by done.
      change (is_sep ".") with false.
      change (clean_elems false [] 0 [["."%char]; m]) with (clean_elems false [] 0 [m]).
      rewrite clean_elems_real by (constructor; [done|constructor]).
      cbn [rev app render Join]. by destruct m.
  - cbn [filepath_Join].
    destruct (render r (e :: l)) as [|c d] eqn:Ed.
    { rewrite render_text in Ed by done.
      pose proof (clean_form_elem_ok _ _ Hform) as Hok.
      destruct (Join_starts (e :: l) [] Hok) as [Hj _]; [done|].
      rewrite app_nil_r in Hj. by destruct r, (Join (e :: l) ["/"%char]). }
    rewrite <- Ed. clear c d Ed.
    change (Join [render r (e :: l); m] "/")
      with (render r (e :: l) ++ ["/"%char] ++ m).
    rewrite (render_text r (e :: l)) by done.
    rewrite <- app_assoc, <- Join_snoc by done.
    rewrite <- (app_nil_r ((e :: l) ++ [m])) at 1.
    apply Clean_of_elems; [done|by destruct l|done].
Qed.

Lemma indicators_real : Forall real_elem indicators.
Proof.
  unfold indicators.
  repeat (constructor;
          [repeat split; try discriminate;
           rewrite list_elem_of_In; cbn; intuition discriminate|]).
  constructor.
Qed.

(** A directory holds a marker when one of the marker names can be stat'ed
    as a direct entry of it. *)
Lemma has_indicator_entries os r l :
  clean_form r l ->
  has_indicator os (render r l)
  = existsb (fun indicator => is_ok (os_Stat os (render r (l ++ [indicator]))))
            indicators.
Proof.
  intros Hform. unfold has_indicator.
  pose proof indicators_real as Hreal.
  induction Hreal as [|m ms Hm _ IH]; [done|].
  cbn [existsb]. by rewrite IH, (Join_render r l m).
Qed.

Example walked_dirs_sample :
  walked_dirs "/home/u/projects/app/src/"
  = ["/home/u/projects/app/src" : str; "/home/u/projects/app" : str;
     "/home/u/projects" : str; "/home/u" : str; "/home" : str]
  /\ ancestor_chain "/home/u/app"
     = ["/home/u/app" : str; "/home/u" : str; "/home" : str; "/" : str]
  /\ walked_dirs "../x" = ["../x" : str; ".." : str]
  /\ walked_dirs "/" = ["/" : str].
Proof. vm_compute. repeat split. Qed.

(** ** detectProject *)

(** C9. The result of [detectProject] does not depend on its pid argument:
    for every host, every start path and every two pids the two calls
    return the same string. *)
Theorem detectProject_ignores_pid (os : OS) (pid1 pid2 : Z) (cwd : str) :
  detectProject os pid1 cwd = detectProject os pid2 cwd.
Proof. unfold detectProject. destruct cwd; reflexivity. Qed.

(** C5, as amended.  For a non-empty start path, look at the directories
    the walk visits: the cleaned start path and then its ancestors, nearest
    first, leaving out the topmost one (the root, or [.] for a relative
    path) unless the start path is that directory itself.  If one of them
    holds a project marker, [detectProject] returns the one nearest to the
    start path. *)
Theorem detectProject_nearest_marker (os : OS) (pid : Z) (cwd : str)
    (before : list str) (d : str) (after : list str) :
  cwd <> [] ->
  walked_dirs cwd = before ++ d :: after ->
  Forall (fun d' => has_indicator os d' = false) before ->
  has_indicator os d = true ->
  detectProject os pid cwd = d.
Proof.
  intros Hne Hdirs Hbefore Hd.
  rewrite detectProject_walk by done.
  rewrite Hdirs. by rewrite find_first.
Qed.

(** The scenario of C5: from /home/u/projects/app/src, with package.json in
    /home/u/projects/app, the result is /home/u/projects/app. *)
Lemma detectProject_nearest_marker_example :
  detectProject (host_with_files ["/home/u/projects/app/package.json" : str]) 4321
                "/home/u/projects/app/src"
  = ("/home/u/projects/app" : str).
Proof.
  apply (detectProject_nearest_marker _ _ _
           ["/home/u/projects/app/src" : str] _
           ["/home/u/projects" : str; "/home/u" : str; "/home" : str]).
  - discriminate.
  - vm_compute. reflexivity.
  - repeat constructor.
  - vm_compute. reflexivity.
Defined.

(** C5 as first stated fails at the root: from /a, with a marker in / only,
    the root is in the ancestor chain and holds a marker, yet the walk
    stops below it and the fall-back answers [a]. *)
Lemma detectProject_skips_root :
  ancestor_chain "/a" = ["/a" : str; "/" : str]
  /\ has_indicator (host_with_files ["/.git" : str]) "/a" = false
  /\ has_indicator (host_with_files ["/.git" : str]) "/" = true
  /\ detectProject (host_with_files ["/.git" : str]) 1 "/a" = ("a" : str).
Proof. vm_compute. repeat split. Qed.

(** C6, as amended.  For a non-empty start path with no marker in any
    directory the walk visits, the result is the last two elements of the
    cleaned path joined by a slash when the cleaned path contains the text
    [home] or [Users] and has at least four elements (five for a relative
    path); otherwise it is the last element (the cleaned path itself when
    it has no element). *)
Theorem detectProject_without_marker (os : OS) (pid : Z) (cwd : str) :
  cwd <> [] ->
  Forall (fun d => has_indicator os d = false) (walked_dirs cwd) ->
  detectProject os pid cwd
  = if mentions_home cwd && deep_enough cwd
    then Join (last_two (path_elements cwd)) "/"
    else last_element cwd.
Proof.
  intros Hne Hnone.
  rewrite detectProject_walk by done.
  rewrite find_none by done.
  by apply detectProject_fallback_elements.
Qed.

(** The scenario of C6: /var/data/x without markers gives [x]. *)
Lemma detectProject_without_marker_example :
  detectProject (host_with_files []) 1 "/var/data/x" = ("x" : str).
Proof.
  rewrite (detectProject_without_marker (host_with_files []) 1 "/var/data/x").
  - vm_compute. reflexivity.
  - discriminate.
  - vm_compute. repeat constructor.
Defined.

(** C6 as first stated fails for a shallow path under a home directory:
    /home/u/app has the element [home] and no marker anywhere in its
    chain, its last two elements are u/app, and the result is [app]. *)
Lemma detectProject_shallow_home :
  under_home "/home/u/app" = true
  /\ forallb (fun d => negb (has_indicator (host_with_files []) d))
             (ancestor_chain "/home/u/app") = true
  /\ Join (last_two (path_elements "/home/u/app")) "/" = ("u/app" : str)
  /\ detectProject (host_with_files []) 1 "/home/u/app" = ("app" : str).
Proof. vm_compute. repeat split. Qed.

(** Two more runs of the fall-back: a deep path under /home, and a path
    that merely contains the letters of [home]. *)
Example detectProject_fallback_runs :
  detectProject (host_with_files []) 1 "/home/u/projects/app/src" = ("app/src" : str)
  /\ under_home "/var/homework/a/b" = false
  /\ detectProject (host_with_files []) 1 "/var/homework/a/b" = ("a/b" : str).
Proof. vm_compute. repeat split. Qed.

(** ** isDockerProcess *)

Lemma slice_take s n : slice s 0 n = take (Z.to_nat n) s.
Proof. unfold slice. by rewrite Z.sub_0_r. Qed.

Lemma docker_id_of_lines_find lines :
  docker_id_of_lines lines
  = (fun line => take 12 (last_segment line)) <$> find names_container lines.
Proof.
  induction lines as [|line rest IH]; [done|].
  cbn [docker_id_of_lines find]. unfold names_container, last_segment.
  destruct (Contains line "docker"); cbn [andb]; [|exact IH].
  destruct (last (Split line "/")) as [containerID|] eqn:E; [|exact IH].
  destruct (12 <=? len containerID); [|exact IH].
  rewrite slice_take. cbn [fmap option_fmap option_map]. by rewrite E.
Qed.

(** C8, as amended.  For every pid: when the cgroup file cannot be read or
    does not contain [docker], the result is (false, empty).  When it
    contains [docker], the flag is true and the identifier is the first 12
    bytes of the last slash-separated segment of the first line that
    contains [docker] and whose last segment has at least 12 bytes; when
    no line is like that, the identifier is [unknown]. *)
Theorem isDockerProcess_reports (os : OS) (pid : Z) :
  isDockerProcess os pid
  = match os_ReadFile os ("/proc/" ++ Itoa pid ++ "/cgroup") with
    | Err _ => (false, [])
    | Ok content =>
        if Contains content "docker" then
          (true,
           match find names_container (Split content newline) with
           | Some line => take 12 (last_segment line)
           | None => "unknown" : str
           end)
        else (false, [])
    end.
Proof.
  unfold isDockerProcess.
  destruct (os_ReadFile os _) as [content|]; [|done].
  destruct (Contains content "docker"); [|done].
  rewrite docker_id_of_lines_find.
  by destruct (find names_container _).
Qed.

(** C8 as first stated fails on a short last segment: the only cgroup line
    contains [docker], the truncation of its last segment is [abc], and the
    identifier reported is [unknown]. *)
Lemma isDockerProcess_short_segment :
  Contains cgroup_short "docker" = true
  /\ take 12 (last_segment cgroup_short) = ("abc" : str)
  /\ isDockerProcess host_cgroup_short 1 = (true, "unknown" : str).
Proof. vm_compute. repeat split. Qed.

Example isDockerProcess_long_segment :
  isDockerProcess
    (host [] [("/proc/9/cgroup" : str,
               text_lines ["12:pids:/docker" : str;
                           "1:name=systemd:/docker/0123456789abcdef0123" : str])] [])
    9
  = (true, "0123456789ab" : str).
Proof. vm_compute. reflexivity. Qed.

(** ** Kill *)

Lemma deliver_owned sig now e : owned (deliver sig now e) = owned e.
Proof. destruct sig; simpl; [|done|done]. by destruct (on_term e). Qed.

Lemma Process_Signal_ok pid sig w e :
  procs w !! pid = Some e -> gone_by e (clock w) = false -> owned e = true ->
  Process_Signal pid sig w
  = (None, set_entry pid (deliver sig (clock w) e) (log (EvSignal pid sig) w)).
Proof.
  intros Hlook Hgone Howned. unfold Process_Signal. cbn [procs log clock].
  by rewrite Hlook, Hgone, Howned.
Qed.

Lemma Process_Signal_gone pid sig w e :
  procs w !! pid = Some e -> gone_by e (clock w) = true ->
  Process_Signal pid sig w
  = (Some (SysError "os: process already finished"), log (EvSignal pid sig) w).
Proof.
  intros Hlook Hgone. unfold Process_Signal. cbn [procs log clock].
  by rewrite Hlook, Hgone.
Qed.

Lemma running_after_grace pid e w :
  running (after_grace pid e w) pid = survives_grace e (clock w).
Proof.
  unfold running, after_grace, survives_grace. cbn.
  by rewrite lookup_insert_eq.
Qed.

(** The whole run of [Kill] on a process that takes the SIGTERM. *)
Lemma Kill_run p w e :
  find_error w = None ->
  procs w !! PID p = Some e ->
  gone_by e (clock w) = false ->
  owned e = true ->
  Kill p w
  = if running (after_grace (PID p) e w) (PID p)
    then (None,
          set_entry (PID p) (deliver SIGKILL (clock w + grace_period)
                               (deliver SIGTERM (clock w) e))
            (log (EvSignal (PID p) SIGKILL)
               (set_entry (PID p) (deliver SIGTERM (clock w) e)
                  (log (EvSignal (PID p) SIGNULL) (after_grace (PID p) e w)))))
    else (None, log (EvSignal (PID p) SIGNULL) (after_grace (PID p) e w)).
Proof.
  intros Hfind Hlook Hgone Howned.
  unfold Kill, mbind, M_bind, os_FindProcess. rewrite Hfind.
  rewrite (Process_Signal_ok _ _ _ e) by done.
  change (time_Sleep grace_period
            (set_entry (PID p) (deliver SIGTERM (clock w) e)
               (log (EvSignal (PID p) SIGTERM) w)))
    with (tt, after_grace (PID p) e w).
  assert (procs (after_grace (PID p) e w) !! PID p
          = Some (deliver SIGTERM (clock w) e)) as Hlook'
    by apply lookup_insert_eq.
  rewrite running_after_grace. unfold survives_grace.
  destruct (gone_by (deliver SIGTERM (clock w) e) (clock w + grace_period)) eqn:Eg;
    cbn [negb].
  - by rewrite (Process_Signal_gone _ _ _ _ Hlook' Eg).
  - rewrite (Process_Signal_ok _ _ _ _ Hlook' Eg) by by rewrite deliver_owned.
    unfold Process_Kill.
    rewrite (Process_Signal_ok _ _ _ (deliver SIGTERM (clock w) e)).
    + done.
    + apply lookup_insert_eq.
    + exact Eg.
    + by rewrite deliver_owned.
Qed.




Example Kill_reports_success :
  (Kill process_77 (world_own None)).1 = None
  /\ running (Kill process_77 (world_own None)).2 77 = false
  /\ force_killed (Kill process_77 (world_own (Some Second))).2 77 = false.
Proof. vm_compute. repeat split. Qed.

(** ** Enrichment *)

(** What the Linux enrichment leaves in each field: every field is decided
    by its own query, whatever the others answer. *)
Lemma linux_enrich_fields (os : OS) (proc : Process) :
  let pid := Itoa (PID proc) in
  let enriched := Linux.enrichProcessInfo os proc in
  PID enriched = PID proc /\ Port enriched = Port proc
  /\ Command enriched
     = match os_ReadFile os ("/proc/" ++ pid ++ "/cmdline") with
       | Ok cmdline => TrimSpace (ReplaceAll cmdline nul_byte " ")
       | Err _ => Command proc
       end
  /\ ProjectPath enriched
     = match os_Readlink os ("/proc/" ++ pid ++ "/cwd") with
       | Ok cwd => detectProject os (PID proc) cwd
       | Err _ => ProjectPath proc
       end
  /\ StartTime enriched
     = match Linux.getProcessStartTime os (PID proc) with
       | Ok startTime => startTime
       | Err _ =>
           match os_Stat os ("/proc/" ++ pid) with
           | Ok modTime => modTime
           | Err _ => StartTime proc
           end
       end
  /\ (IsDocker enriched, DockerID enriched) = isDockerProcess os (PID proc).
Proof.
  cbv zeta. unfold Linux.enrichProcessInfo.
  destruct (str_eqb (Name proc) []);
    [destruct (os_ReadFile os ("/proc/" ++ Itoa (PID proc) ++ "/comm"))|];
    destruct (os_ReadFile os ("/proc/" ++ Itoa (PID proc) ++ "/cmdline"));
    destruct (os_Readlink os ("/proc/" ++ Itoa (PID proc) ++ "/cwd"));
    cbn [PID set_Name set_Command set_ProjectPath];
    destruct (Linux.getProcessStartTime os (PID proc));
    try destruct (os_Stat os ("/proc/" ++ Itoa (PID proc)));
    cbn [PID set_Name set_Command set_ProjectPath set_StartTime];
    destruct (isDockerProcess os (PID proc)); done.
Qed.

Lemma linux_start_time_unset (os : OS) (proc : Process) :
  is_ok (Linux.getProcessStartTime os (PID proc)) = false ->
  is_ok (os_Stat os ("/proc/" ++ Itoa (PID proc))) = false ->
  StartTime (Linux.enrichProcessInfo os proc) = StartTime proc.
Proof.
  intros Hstart Hstat.
  destruct (linux_enrich_fields os proc) as (_ & _ & _ & _ & -> & _).
  destruct (Linux.getProcessStartTime os (PID proc)); [done|].
  by destruct (os_Stat os _).
Qed.

Lemma darwin_cwd_lines_frame os lines proc :
  pid_port (Darwin.cwd_lines os lines proc) = pid_port proc
  /\ StartTime (Darwin.cwd_lines os lines proc) = StartTime proc.
Proof.
  revert proc. induction lines as [|line rest IH]; intros proc; [done|].
  cbn [Darwin.cwd_lines].
  destruct (_ && _); [|apply IH].
  destruct (last (Fields line)) as [cwd|]; [|apply IH].
  destruct (IH (set_ProjectPath (detectProject os (PID proc) cwd) proc)) as [-> ->].
  done.
Qed.

Lemma darwin_enrich_pid_port (os : OS) (proc : Process) :
  pid_port (Darwin.enrichProcessInfo os proc) = pid_port proc.
Proof.
  unfold Darwin.enrichProcessInfo.
  destruct (exec_Output os _) as [output|]; [|done].
  set (p1 := match Split (TrimSpace output) newline with [] => proc | _ => _ end).
  assert (pid_port p1 = pid_port proc) as H1.
  { subst p1. destruct (Split _ _) as [|line ?]; [done|].
    by destruct (SplitN2 line " ") as [|? [|? ?]]. }
  clearbody p1.
  set (p2 := match exec_Output os _ with Ok _ => _ | Err _ => p1 end).
  assert (pid_port p2 = pid_port proc) as H2.
  { subst p2. destruct (exec_Output os _); [|done]. by destruct (time_Parse os _ _). }
  clearbody p2.
  set (p3 := match exec_Output os _ with Ok _ => _ | Err _ => p2 end).
  assert (pid_port p3 = pid_port proc) as H3.
  { subst p3. destruct (exec_Output os _) as [text|]; [|done].
    by destruct (darwin_cwd_lines_frame os (Split text newline) p2) as [-> _]. }
  clearbody p3.
  by destruct (_ || _).
Qed.

(** On macOS a failure of the first ps call ends the enrichment. *)
Lemma darwin_enrich_first_failure (os : OS) (proc : Process) :
  is_ok (exec_Output os (ps_of (PID proc) "comm=,command=")) = false ->
  Darwin.enrichProcessInfo os proc = proc.
Proof.
  unfold Darwin.enrichProcessInfo, ps_of. by destruct (exec_Output os _).
Qed.

(** C1, on the Linux back end.  A listener whose /proc entry has vanished
    by the time it is enriched (the stat file cannot be read and the
    directory cannot be stat'ed) is returned by [FindByPort] with the zero
    start time, although the current time of the host is not zero: the
    Linux enrichment has no fall-back to the current time. *)
Theorem linux_start_time_left_zero :
  Linux.FindByPort host_vanished 80 = Returns (Ok (Some (new_Process 1234 [] 80)))
  /\ IsZero (StartTime (new_Process 1234 [] 80)) = true
  /\ IsZero (time_Now host_vanished) = false.
Proof. vm_compute. repeat split. Qed.

(** C4, on the macOS back end.  When the first ps call fails the record
    comes back untouched, although the start-time query of the same host
    answers and would have set the start time (as it does on the host
    where the first call works too). *)
Theorem darwin_enrich_gives_up_early :
  Darwin.enrichProcessInfo mac_first_ps_fails (new_Process 501 "node" 3000)
    = new_Process 501 "node" 3000
  /\ exec_Output mac_first_ps_fails (ps_of 501 "lstart=") = Ok (text_lines [lstart_text])
  /\ StartTime (Darwin.enrichProcessInfo mac_all_answer (new_Process 501 "node" 3000))
     = 63839356245 * Second.
Proof. vm_compute. repeat split. Qed.

(** ** Listing *)

Lemma keyed_empty : keyed ∅.
Proof. intros k p H. by rewrite lookup_empty in H. Qed.

Lemma keyed_insert m p pid port :
  keyed m -> pid_port p = (pid, port) -> keyed (<[map_key pid port := p]> m).
Proof.
  intros Hm [= <- <-] k q. rewrite lookup_insert. case_decide as Hk.
  - intros [= <-]. done.
  - apply Hm.
Qed.

Lemma keyed_values_NoDup m : keyed m -> NoDup (map pid_port (map_values m)).
Proof.
  intros Hm. unfold map_values.
  apply (NoDup_fmap_1 (fun pp => map_key pp.1 pp.2)).
  rewrite <- !list_fmap_compose.
  rewrite (list_fmap_ext _ fst (map_to_list m)).
  - apply NoDup_fst_map_to_list.
  - intros i [k p] Hi. cbn. symmetry. apply Hm.
    apply elem_of_map_to_list. eapply list_elem_of_lookup_2. exact Hi.
Qed.

Lemma darwin_parseLsof_map_keyed os lines m :
  keyed m -> keyed (Darwin.parseLsof_map os lines m).
Proof.
  revert m. induction lines as [|line rest IH]; intros m Hm; [done|].
  cbn [Darwin.parseLsof_map].
  destruct (len' (Fields line) <? 9); [by apply IH|].
  destruct (negb _); [by apply IH|].
  destruct (_ ≫= Atoi) as [port|]; [|by apply IH].
  destruct (Fields line) as [|name [|pidText fields]]; [by apply IH|by apply IH|].
  destruct (Atoi pidText) as [pid|]; [|by apply IH].
  destruct (m !! map_key pid port); [by apply IH|].
  apply IH, keyed_insert; [done|].
  apply (darwin_enrich_pid_port os (new_Process pid name port)).
Qed.

Lemma darwin_ListAll_distinct (os : OS) (processes : list Process) :
  Darwin.ListAll os = Ok processes -> NoDup (map pid_port processes).
Proof.
  unfold Darwin.ListAll, Darwin.parseLsofOutputMultiple.
  destruct (exec_Output os _) as [output|]; [|done].
  destruct (_ <? 2); intros [= <-]; [constructor|].
  apply keyed_values_NoDup, darwin_parseLsof_map_keyed, keyed_empty.
Qed.

Section WindowsFacts.

Variable detect : Z -> str -> str.

Lemma windows_project_from_command_frame pid parts proc :
  pid_port (Windows.project_from_command detect pid parts proc) = pid_port proc
  /\ StartTime (Windows.project_from_command detect pid parts proc) = StartTime proc.
Proof.
  revert proc. induction parts as [|part rest IH]; intros proc; [done|].
  cbn [Windows.project_from_command].
  destruct (_ || _); [|apply IH].
  destruct (_ && _); [done|].
  destruct (IH (set_ProjectPath (detect pid part) proc)) as [-> ->]. done.
Qed.

(** After the start-time step of the Windows enrichment nothing touches
    the start time, the pid or the port. *)
Lemma windows_enrich_frame (os : OS) (proc : Process) :
  pid_port (Windows.enrichProcessInfo detect os proc) = pid_port proc
  /\ (IsZero (time_Now os) = false ->
      IsZero (StartTime (Windows.enrichProcessInfo detect os proc)) = false).
Proof.
  unfold Windows.enrichProcessInfo.
  set (p1 := match exec_Output os (Windows.wmic (PID proc) "CommandLine") with
             | Ok _ => _ | Err _ => proc end).
  assert (pid_port p1 = pid_port proc) as H1.
  { subst p1. destruct (exec_Output os _); [|done]. by destruct (Windows.first_value _ _). }
  clearbody p1.
  set (p2 := match exec_Output os (Windows.wmic (PID proc) "CreationDate") with
             | Ok _ => _ | Err _ => p1 end).
  assert (pid_port p2 = pid_port proc) as H2.
  { subst p2. destruct (exec_Output os _); [|done].
    destruct (Windows.first_value _ _) as [dateStr|]; [|done]. by destruct (14 <=? _). }
  clearbody p2.
  set (p3 := if IsZero (StartTime p2) then set_StartTime (time_Now os) p2 else p2).
  assert (pid_port p3 = pid_port proc
          /\ (IsZero (time_Now os) = false -> IsZero (StartTime p3) = false)) as [H3 Hz].
  { subst p3. destruct (IsZero (StartTime p2)) eqn:Ez; done. }
  clearbody p3.
  set (p4 := match exec_Output os (Windows.wmic (PID proc) "ExecutablePath") with
             | Ok _ => _ | Err _ => p3 end).
  assert (pid_port p4 = pid_port proc /\ StartTime p4 = StartTime p3) as [H4 Ht4].
  { subst p4. destruct (exec_Output os _); [|done].
    destruct (Windows.first_value _ _) as [exePath|]; [|done]. by destruct (negb _). }
  clearbody p4.
  set (p5 := if str_eqb (ProjectPath p4) [] && negb (str_eqb (Command p4) [])
             then _ else p4).
  assert (pid_port p5 = pid_port proc /\ StartTime p5 = StartTime p3) as [H5 Ht5].
  { subst p5. destruct (_ && _); [|done].
    destruct (windows_project_from_command_frame (PID proc) (Fields (Command p4)) p4)
      as [-> ->]. done. }
  clearbody p5.
  destruct (_ || _); cbn [pid_port PID Port StartTime set_IsDocker set_Docker];
    (split; [exact H5 | by rewrite Ht5]).
Qed.

Lemma windows_details_lines_id os lines proc found :
  Windows.details_lines detect os lines proc = Some found ->
  pid_port found = pid_port proc.
Proof.
  revert proc. induction lines as [|line rest IH]; intros proc; [done|].
  cbn [Windows.details_lines].
  destruct (str_eqb _ []); [apply IH|].
  destruct (9 <=? _); [|apply IH].
  destruct (Windows.parseCSVLine _) as [|name fields]; [done|].
  intros [= <-].
  by destruct (windows_enrich_frame os (set_Name (Trim name [quote_byte]) proc)) as [-> _].
Qed.

Lemma windows_getProcessDetails_id os pid port found :
  Windows.getProcessDetails detect os pid port = Ok (Some found) ->
  pid_port found = (pid, port).
Proof.
  unfold Windows.getProcessDetails.
  destruct (pid =? 0); [done|].
  destruct (exec_Output os _) as [output|]; [|done].
  destruct (_ <? 2); [done|].
  destruct (Windows.details_lines _ _ _ _) as [p|] eqn:E; [|done].
  intros [= <-]. by apply windows_details_lines_id in E.
Qed.

Lemma windows_parseNetstat_map_keyed os lines m :
  keyed m -> keyed (Windows.parseNetstat_map detect os lines m).
Proof.
  revert m. induction lines as [|line rest IH]; intros m Hm; [done|].
  cbn [Windows.parseNetstat_map].
  destruct (negb _); [by apply IH|].
  destruct (len' (Fields line) <? 5); [by apply IH|].
  destruct (_ ≫= Atoi) as [port|]; [|by apply IH].
  destruct (last (Fields line) ≫= Atoi) as [pid|]; [|by apply IH].
  destruct (pid =? 0); [by apply IH|].
  destruct (m !! map_key pid port); [by apply IH|].
  destruct (Windows.getProcessDetails detect os pid port) as [[found|]|] eqn:E;
    [|by apply IH|by apply IH].
  apply IH, keyed_insert; [done|].
  by apply windows_getProcessDetails_id in E.
Qed.

Lemma windows_ListAll_distinct (os : OS) (processes : list Process) :
  Windows.ListAll detect os = Ok processes -> NoDup (map pid_port processes).
Proof.
  unfold Windows.ListAll, Windows.parseNetstatOutput.
  destruct (exec_Output os _) as [output|]; [|done].
  intros [= <-].
  apply keyed_values_NoDup, windows_parseNetstat_map_keyed, keyed_empty.
Qed.

(** Every record the Windows finder returns has a start time, whatever
    wmic answered. *)
Lemma windows_FindByPort_start_time (os : OS) (port : Z) (found : Process) :
  IsZero (time_Now os) = false ->
  Windows.FindByPort detect os port = Ok (Some found) ->
  IsZero (StartTime found) = false.
Proof.
  intros Hnow. unfold Windows.FindByPort, Windows.getProcessDetails.
  destruct (exec_Output os _) as [output|]; [|done].
  destruct (_ =? 0); [done|].
  destruct (exec_Output os _) as [details|]; [|done].
  destruct (_ <? 2); [done|].
  generalize (new_Process (Windows.findPIDByPort output port) [] port).
  generalize (tail (Split details newline)).
  intros lines. induction lines as [|line rest IH]; intros proc; [done|].
  cbn [Windows.details_lines].
  destruct (str_eqb _ []); [apply IH|].
  destruct (9 <=? _); [|apply IH].
  destruct (Windows.parseCSVLine _) as [|name fields]; [done|].
  intros [= <-].
  by apply (windows_enrich_frame os (set_Name (Trim name [quote_byte]) proc)).
Qed.

End WindowsFacts.

Lemma isRegexSpace_isSpace c : isRegexSpace c = true -> isSpace c = true.
Proof.
  unfold isRegexSpace, isSpace. cbv zeta. intros H.
  rewrite !orb_true_iff, !N.eqb_eq in H.
  destruct H as [[[[->| ->]| ->]| ->]| ->]; reflexivity.
Qed.

Lemma fields_aux_no_space s :
  Forall (fun c => isSpace c = false) (fields_aux s).1
  /\ Forall (Forall (fun c => isSpace c = false)) (fields_aux s).2.
Proof.
  induction s as [|c s [IHw IHfs]]; [by split|].
  cbn [fields_aux]. destruct (fields_aux s) as [w fs]. cbn [fst snd] in *.
  destruct (isSpace c) eqn:Ec; cbn [fst snd].
  - split; [constructor|]. destruct w; [done|]. by constructor.
  - split; [by constructor|done].
Qed.

Lemma Fields_no_space s : Forall (Forall (fun c => isSpace c = false)) (Fields s).
Proof.
  unfold Fields. pose proof (fields_aux_no_space s) as [Hw Hfs].
  destruct (fields_aux s) as [w fs]. cbn [fst snd] in *.
  destruct w; [done|]. by constructor.
Qed.

Lemma trim_left_no_space f s :
  Forall (fun c => isSpace c = false) s ->
  Forall (fun c => isSpace c = false) (trim_left f s).
Proof.
  induction 1 as [|c s Hc Hs IH]; [constructor|].
  cbn [trim_left]. destruct (f c); [done|by constructor].
Qed.

(** A field holds no white space, so the port pattern of the Windows
    listing, which ends in white space, never matches inside one. *)
Lemma find_port_submatch_no_space suffix s :
  Forall (fun c => isSpace c = false) s -> find_port_submatch suffix s = None.
Proof.
  induction 1 as [|c s Hc Hs IH]; [done|].
  cbn [find_port_submatch]. destruct (Ascii.eqb c ":"); [|done].
  unfold match_after_colon.
  pose proof (trim_left_no_space isDigit s Hs) as Hrest.
  destruct (take_run isDigit s); [done|].
  destruct (trim_left isDigit s) as [|d rest]; [done|].
  inversion Hrest as [|? ? Hd _]; subst. cbn [take_run].
  destruct (isRegexSpace d) eqn:Ed; [|done].
  apply isRegexSpace_isSpace in Ed. congruence.
Qed.

Section WindowsListing.

Variable detect : Z -> str -> str.

Lemma windows_parseNetstat_map_same os lines m :
  Windows.parseNetstat_map detect os lines m = m.
Proof.
  induction lines as [|line rest IH]; [done|].
  cbn [Windows.parseNetstat_map].
  destruct (negb _); [done|].
  destruct (len' (Fields line) <? 5); [done|].
  pose proof (Fields_no_space line) as Hfields.
  destruct (Fields line !! 1%nat) as [addr|] eqn:E; cbn [mbind option_bind]; [|done].
  rewrite find_port_submatch_no_space; [done|].
  rewrite Forall_forall in Hfields. apply Hfields.
  eapply list_elem_of_lookup_2. exact E.
Qed.

(** The Windows listing is always empty: it looks for the port pattern
    inside the address field. *)
Lemma windows_ListAll_empty (os : OS) (output : str) :
  exec_Output os ["netstat" : str; "-ano" : str; "-p" : str; "tcp" : str] = Ok output ->
  Windows.ListAll detect os = Ok [].
Proof.
  intros H. unfold Windows.ListAll, Windows.parseNetstatOutput. rewrite H.
  by rewrite windows_parseNetstat_map_same.
Qed.

End WindowsListing.

(** On macOS the two lines of a dual-stack listener give one record. *)
Example darwin_ListAll_dual_stack :
  (fun r => match r with Ok l => map pid_port l | Err _ => [] end)
    (Darwin.ListAll mac_dual_stack) = [(501, 3000)].
Proof. vm_compute. reflexivity. Qed.

(** C2, on the Linux back end.  With nginx bound to port 80 on both address
    families, ss prints two LISTEN lines for pid 1234 and [ListAll] returns
    the same record twice: the Linux parser keeps no map of the pairs it has
    seen. *)
Theorem linux_ListAll_repeats_pair :
  exists p,
    Linux.ListAll host_dual_stack = Returns (Ok [p; p]) /\ pid_port p = (1234, 80).
Proof. eexists. split; vm_compute; reflexivity. Qed.

(** ** Lookup by port *)

Lemma linux_parseNetstatLine_ok os line port :
  exists found, Linux.parseNetstatLine os line port = Ok found.
Proof.
  unfold Linux.parseNetstatLine.
  destruct (_ <? 7); [by eexists|].
  destruct (Fields line !! 6%nat) as [pidProg|]; [|by eexists].
  destruct (str_eqb pidProg "-"); [by eexists|].
  destruct (Split pidProg "/") as [|pidText [|name [|? ?]]]; try by eexists.
  destruct (Atoi pidText); by eexists.
Qed.

(** The Linux lookup fails only when netstat could not be run. *)
Lemma linux_FindByPort_error (os : OS) (port : Z) (e : error) :
  Linux.FindByPort os port = Returns (Err e) ->
  exec_Output os netstat_all = Err e.
Proof.
  unfold Linux.FindByPort, mbind, outcome_bind.
  destruct (Linux.findUsingSS os port) as [r|]; [|done].
  assert (Linux.findUsingNetstat os port = Err e -> exec_Output os netstat_all = Err e)
    as Hnet.
  { unfold Linux.findUsingNetstat, netstat_all.
    destruct (exec_Output os _) as [output|]; [|by intros [= ->]].
    destruct (find _ _) as [line|]; [|done].
    destruct (linux_parseNetstatLine_ok os line port) as [found ->]. done. }
  destruct r as [[proc|]|]; [done| |]; intros [= H]; by apply Hnet.
Qed.

Lemma linux_FindByPort_without_netstat :
  Linux.FindByPort host_without_netstat 80
  = Returns (Err (SysError "executable file not found in $PATH")).
Proof. vm_compute. reflexivity. Qed.

(** The macOS lookup fails only when lsof failed otherwise than by its
    exit status 1, which stands for no match. *)
Lemma darwin_FindByPort_error (os : OS) (port : Z) (e : error) :
  Darwin.FindByPort os port = Err e ->
  exists cause,
    exec_Output os ["lsof" : str; "-i" : str; ":" ++ Itoa port; "-n" : str; "-P" : str]
      = Err cause
    /\ cause <> ExitError 1 /\ e = Wrapf "lsof failed" cause.
Proof.
  unfold Darwin.FindByPort, Darwin.parseLsofOutput.
  destruct (exec_Output os _) as [output|cause].
  - by destruct (_ <? 2).
  - intros H. exists cause. split; [done|].
    destruct cause as [code| | |]; try (injection H as <-; done).
    destruct code as [|[]|]; try (injection H as <-; done). done.
Qed.

Lemma darwin_FindByPort_no_match (os : OS) (port : Z) :
  exec_Output os ["lsof" : str; "-i" : str; ":" ++ Itoa port; "-n" : str; "-P" : str]
    = Err (ExitError 1) ->
  Darwin.FindByPort os port = Ok None.
Proof. intros H. unfold Darwin.FindByPort. by rewrite H. Qed.

Lemma windows_FindByPort_no_match (detect : Z -> str -> str) (os : OS) (port : Z)
    (output : str) :
  exec_Output os ["netstat" : str; "-ano" : str; "-p" : str; "tcp" : str] = Ok output ->
  Windows.findPIDByPort output port = 0 ->
  Windows.FindByPort detect os port = Ok None.
Proof. intros H H0. unfold Windows.FindByPort. by rewrite H, H0. Qed.

(** Without a line that mentions the port, the netstat lookup finds
    nothing. *)
Lemma linux_findUsingNetstat_no_line (os : OS) (port : Z) (output : str) :
  exec_Output os netstat_all = Ok output ->
  Forall (fun line => Linux.line_mentions port line = false) (Split output newline) ->
  Linux.findUsingNetstat os port = Ok None.
Proof.
  intros Hrun Hnone. unfold Linux.findUsingNetstat.
  unfold netstat_all in Hrun. rewrite Hrun.
  by rewrite find_none.
Qed.

(** C3, on the Linux back end.  Nothing listens on port 80 ([ListAll] finds
    the one listener, on port 8080), yet [FindByPort 80] returns a record:
    the netstat line of port 8080 contains the text [:80]. *)
Theorem linux_FindByPort_matches_longer_port :
  (exists p,
     Linux.FindByPort host_other_port 80 = Returns (Ok (Some p))
     /\ pid_port p = (4321, 80))
  /\ (exists l,
        Linux.ListAll host_other_port = Returns (Ok l)
        /\ map pid_port l = [(4321, 8080)]).
Proof. split; eexists; split; vm_compute; reflexivity. Qed.

(** ** The list view *)


Section UpdateFacts.

Variable formatDuration : Duration -> str.
Variable time_Since : Time -> Duration.
Variable table_nav : UI.Msg -> UI.TableModel -> Z.
Variable setrows_cursor : list UI.Row -> Z -> Z.
Variable spinner_Update : Z -> Z.

Abbreviation Update := (UI.Update formatDuration time_Since table_nav setrows_cursor spinner_Update).
Abbreviation kill_selected := (UI.kill_selected formatDuration time_Since table_nav setrows_cursor).
Abbreviation processToRow := (UI.processToRow formatDuration time_Since).




End UpdateFacts.


(** * Further properties

    Properties of the same code that the statements above leave out, and of
    functions next to it: the CSV reader of the Windows back end, the
    plain-text helpers and the kill command. *)

(** ** The project directory *)

Lemma render_nonempty r l : clean_form r l -> render r l <> [].
Proof.
  intros Hform. destruct l as [|e l]; [by destruct r|].
  rewrite render_text by done.
  pose proof (clean_form_elem_ok _ _ Hform) as Hok.
  destruct (Join_starts (e :: l) [] Hok) as [Hj _]; [done|].
  rewrite app_nil_r in Hj. by destruct r, (Join (e :: l) ["/"%char]).
Qed.

Lemma prefixes_take {A} (l x : list A) : x ∈ prefixes l -> exists n, x = take n l.
Proof.
  revert x. induction l as [|a l IH]; intros x Hx; cbn [prefixes] in Hx.
  - apply list_elem_of_singleton in Hx as ->. by exists 0%nat.
  - apply elem_of_cons in Hx as [->|Hx]; [by exists 0%nat|].
    apply list_elem_of_fmap in Hx as (y & -> & Hy).
    destruct (IH y Hy) as [n ->]. by exists (S n).
Qed.

Lemma walked_clean r l d :
  clean_form r l -> d ∈ walked r l -> exists l', clean_form r l' /\ d = render r l'.
Proof.
  intros Hform Hd. unfold walked in Hd. destruct l as [|e l].
  - apply list_elem_of_singleton in Hd as ->. by exists [].
  - apply list_elem_of_fmap in Hd as (x & -> & Hx).
    exists x. split; [|done].
    apply list_elem_of_In, in_rev, list_elem_of_In in Hx.
    assert (x ∈ prefixes (e :: l)) as Hx'.
    { cbn [prefixes tail] in Hx |- *. by apply elem_of_cons; right. }
    destruct (prefixes_take _ _ Hx') as [n ->]. by apply clean_form_take.
Qed.

Lemma find_elem {A} (f : A -> bool) l x : find f l = Some x -> x ∈ l /\ f x = true.
Proof.
  intros H. apply find_some in H as [H1 H2]. split; [by apply list_elem_of_In|done].
Qed.

(** Whatever [detectProject] returns for a non-empty start path is the text
    of a cleaned path. *)
Lemma detectProject_clean_result os pid cwd :
  cwd <> [] ->
  exists r l, clean_form r l /\ detectProject os pid cwd = render r l.
Proof.
  intros Hne. rewrite detectProject_walk by done.
  pose proof (path_elements_form cwd) as Hform.
  destruct (find _ _) as [d|] eqn:Ef.
  - apply find_elem in Ef as [Hd _].
    destruct (walked_clean _ _ _ Hform Hd) as (l' & Hl' & ->). eauto.
  - rewrite detectProject_fallback_elements by done.
    destruct (_ && _) eqn:Eb.
    + apply andb_true_iff in Eb as [_ Hdeep%Z.leb_le].
      exists false, (last_two (path_elements cwd)). split.
      * by apply (clean_form_drop (isRooted cwd)).
      * unfold render. destruct (last_two (path_elements cwd)) eqn:E; [|done].
        unfold last_two in E. apply (f_equal length) in E.
        rewrite length_drop in E. simpl in E. destruct (isRooted cwd); lia.
    + unfold last_element.
      destruct (last (path_elements cwd)) as [e|] eqn:El.
      * apply last_Some in El as [l El]. rewrite El in Hform.
        exists false, [e]. split; [|done].
        apply (clean_form_drop _ _ (length l)) in Hform.
        by rewrite drop_app_length in Hform.
      * apply last_None in El. rewrite El in Hform.
        exists (isRooted cwd), []. split; [done|].
        rewrite Clean_elements by done. by rewrite El.
Qed.

(** X1.  [detectProject] never returns the empty text: for the empty start
    path it answers [unknown], and for any other the text of a cleaned
    path. *)
Theorem detectProject_never_empty (os : OS) (pid : Z) (cwd : str) :
  exists c rest, detectProject os pid cwd = c :: rest.
Proof.
  destruct cwd as [|c cwd]; [by eexists _, _|].
  destruct (detectProject_clean_result os pid (c :: cwd)) as (r & l & Hform & ->); [done|].
  pose proof (render_nonempty _ _ Hform) as Hne.
  destruct (render r l) as [|c' rest]; [done|]. by exists c', rest.
Qed.

(** X2.  A project directory found through a marker is a fixed point: asked
    again from the directory it returned, [detectProject] returns that
    directory. *)
Theorem detectProject_idempotent (os : OS) (pid pid' : Z) (cwd : str) :
  cwd <> [] ->
  has_indicator os (detectProject os pid cwd) = true ->
  detectProject os pid' (detectProject os pid cwd) = detectProject os pid cwd.
Proof.
  intros Hne Hmark.
  destruct (detectProject_clean_result os pid cwd) as (r & l & Hform & Heq); [done|].
  rewrite Heq in *.
  pose proof (render_nonempty _ _ Hform) as Hd.
  unfold detectProject at 1. destruct (render r l) as [|c d] eqn:E; [done|].
  rewrite <- E in *. rewrite Clean_render by done.
  cbn [walk_up]. by rewrite Hmark.
Qed.

Lemma detectProject_idempotent_example :
  detectProject (host_with_files ["/srv/app/go.mod" : str]) 7
    (detectProject (host_with_files ["/srv/app/go.mod" : str]) 7 "/srv/app/cmd/tool")
  = ("/srv/app" : str).
Proof.
  rewrite (detectProject_idempotent (host_with_files ["/srv/app/go.mod" : str]) 7 7
             "/srv/app/cmd/tool").
  - vm_compute. reflexivity.
  - discriminate.
  - vm_compute. reflexivity.
Defined.

Lemma detectProject_body os pid cwd :
  cwd <> [] ->
  detectProject os pid cwd
  = match walk_up (S (length (filepath_Clean cwd))) os (filepath_Clean cwd) with
    | Found current => current
    | _ => detectProject_fallback (filepath_Clean cwd)
    end.
Proof. intros Hne. destruct cwd; [done|]. unfold detectProject. by destruct (walk_up _ _ _). Qed.

(** X3.  [detectProject] sees its start path only through [filepath.Clean]:
    the cleaned path gives the same answer as the path itself. *)
Theorem detectProject_of_cleaned (os : OS) (pid : Z) (cwd : str) :
  cwd <> [] ->
  detectProject os pid (filepath_Clean cwd) = detectProject os pid cwd.
Proof.
  intros Hne.
  assert (filepath_Clean (filepath_Clean cwd) = filepath_Clean cwd) as Hidem.
  { rewrite (Clean_elements cwd) by done. apply Clean_render, path_elements_form. }
  assert (filepath_Clean cwd <> []) as Hne'.
  { rewrite (Clean_elements cwd) by done. apply render_nonempty, path_elements_form. }
  rewrite (detectProject_body os pid (filepath_Clean cwd)) by done.
  rewrite (detectProject_body os pid cwd) by done.
  by rewrite Hidem.
Qed.

Lemma detectProject_of_cleaned_example :
  detectProject (host_with_files ["/srv/app/go.mod" : str]) 7 "/srv/app"
  = detectProject (host_with_files ["/srv/app/go.mod" : str]) 7 "/srv//app/./cmd/../".
Proof.
  rewrite <- (detectProject_of_cleaned _ 7 "/srv//app/./cmd/../"); [|discriminate].
  vm_compute. reflexivity.
Defined.


(** ** Container detection *)

Lemma docker_id_of_lines_length lines id :
  docker_id_of_lines lines = Some id -> length id = 12%nat.
Proof.
  induction lines as [|line rest IH]; [done|]. cbn [docker_id_of_lines].
  destruct (Contains line "docker"); [|exact IH].
  destruct (last (Split line "/")) as [containerID|]; [|exact IH].
  destruct (12 <=? len containerID) eqn:E; [|exact IH].
  intros [= <-]. apply Z.leb_le in E. unfold len in E.
  unfold slice. rewrite length_take, length_drop.
  change (Z.to_nat (12 - 0)) with 12%nat. change (Z.to_nat 0) with 0%nat. lia.
Qed.

(** X4.  The identifier [isDockerProcess] reports is empty when the flag is
    false, and with the flag set it is [unknown] or has exactly twelve
    bytes. *)
Theorem isDockerProcess_identifier (os : OS) (pid : Z) :
  (isDockerProcess os pid).1 = false /\ (isDockerProcess os pid).2 = []
  \/ (isDockerProcess os pid).1 = true
     /\ ((isDockerProcess os pid).2 = ("unknown" : str)
         \/ length (isDockerProcess os pid).2 = 12%nat).
Proof.
  unfold isDockerProcess.
  destruct (os_ReadFile os _) as [content|]; [|by left].
  destruct (Contains content "docker"); [|by left].
  right. destruct (docker_id_of_lines _) as [id|] eqn:E; cbn [fst snd].
  - split; [done|]. right. by eapply docker_id_of_lines_length.
  - split; [done|]. by left.
Qed.



(** ** Kill, once more *)

Lemma Process_Signal_cases pid sig w :
  (exists e,
     procs w !! pid = Some e /\ gone_by e (clock w) = false /\ owned e = true
     /\ Process_Signal pid sig w
        = (None, set_entry pid (deliver sig (clock w) e) (log (EvSignal pid sig) w)))
  \/ exists err, Process_Signal pid sig w = (Some err, log (EvSignal pid sig) w).
Proof.
  unfold Process_Signal. cbn [procs log clock].
  destruct (procs w !! pid) as [e|] eqn:El; [|right; by eexists].
  destruct (gone_by e (clock w)) eqn:Eg; [right; by eexists|].
  destruct (owned e) eqn:Eo; cbn [negb]; [|right; by eexists].
  left. exists e. done.
Qed.

(** The three ways a call of [Kill] can go. *)
Lemma Kill_cases p w :
  (exists err,
     find_error w = Some err
     /\ Kill p w = (Some (Wrapf "process not found" err), w))
  \/ (exists err,
        Kill p w = (Some (Wrapf "failed to send SIGTERM" err),
                    log (EvSignal (PID p) SIGTERM) w))
  \/ (exists e,
        find_error w = None /\ procs w !! PID p = Some e
        /\ gone_by e (clock w) = false /\ owned e = true).
Proof.
  destruct (find_error w) as [err|] eqn:Ef.
  - left. exists err. split; [done|].
    unfold Kill, mbind, M_bind, os_FindProcess. by rewrite Ef.
  - right.
    destruct (Process_Signal_cases (PID p) SIGTERM w)
      as [(e & Hl & Hg & Ho & _)|[err Herr]].
    + right. exists e. done.
    + left. exists err.
      unfold Kill, mbind, M_bind, os_FindProcess. by rewrite Ef, Herr.
Qed.










(** X7.  [Kill] touches one process: every event it adds to the trace is a
    signal to the pid of the record or a wait, the entries of all other
    processes are as before, and so is the answer of [os.FindProcess]. *)
Theorem Kill_touches_one_process (p : Process) (w : World) :
  (exists evs,
     trace (Kill p w).2 = trace w ++ evs /\ forallb (about (PID p)) evs = true)
  /\ (forall q, q <> PID p -> procs (Kill p w).2 !! q = procs w !! q)
  /\ find_error (Kill p w).2 = find_error w.
Proof.
  destruct (Kill_cases p w) as [(err & _ & ->)|[(err & ->)|(e & Hf & Hl & Hg & Ho)]].
  - split; [exists []; by rewrite app_nil_r|done].
  - split; [|done]. exists [EvSignal (PID p) SIGTERM]. cbn. by rewrite Z.eqb_refl.
  - rewrite (Kill_run p w e) by done.
    destruct (running _ _); cbn [snd]; (split; [|split; [|done]]).
    + exists [EvSignal (PID p) SIGTERM; EvSleep grace_period; EvSignal (PID p) SIGNULL;
              EvSignal (PID p) SIGKILL].
      cbn. rewrite Z.eqb_refl. by rewrite <- !app_assoc.
    + intros q Hq. cbn. by rewrite !lookup_insert_ne.
    + exists [EvSignal (PID p) SIGTERM; EvSleep grace_period; EvSignal (PID p) SIGNULL].
      cbn. rewrite Z.eqb_refl. by rewrite <- !app_assoc.
    + intros q Hq. cbn. by rewrite !lookup_insert_ne.
Qed.


(** ** The Linux back end *)

Lemma HasPrefix_single c s : HasPrefix s [c] = match s with x :: _ => Ascii.eqb x c | [] => false end.
Proof. destruct s as [|x s]; [done|]. cbn [HasPrefix]. destruct s; cbn [HasPrefix]; apply andb_true_r. Qed.

Lemma last_index_absent c s i : c ∉ s -> last_index_from i s [c] = -1.
Proof.
  revert i. induction s as [|x s IH]; intros i Hc; [done|].
  apply not_elem_of_cons in Hc as [Hx Hs].
  cbn [last_index_from]. rewrite IH by done. rewrite HasPrefix_single.
  destruct (Ascii.eqb_spec x c); [congruence|done].
Qed.

Lemma last_index_found c a rest i :
  0 <= i -> c ∉ rest -> last_index_from i (a ++ c :: rest) [c] = i + len a.
Proof.
  revert i. induction a as [|x a IH]; intros i Hi Hc.
  - cbn [app last_index_from]. rewrite last_index_absent by done.
    rewrite HasPrefix_single, Ascii.eqb_refl. unfold len. simpl. lia.
  - cbn [app last_index_from]. rewrite IH by (lia || done).
    unfold len. cbn [length].
    replace (0 <=? i + 1 + Z.of_nat (length a)) with true by (symmetry; apply Z.leb_le; lia).
    lia.
Qed.

Lemma slice_from_app a b : slice_from (a ++ b) (len a) = b.
Proof. unfold slice_from, len. by rewrite Nat2Z.id, drop_app_length. Qed.

Lemma getProcessStartTime_rest (os : OS) (pid : Z) (head rest : str) :
  os_ReadFile os ("/proc/" ++ Itoa pid ++ "/stat") = Ok (head ++ ")" ++ rest) ->
  ")"%char ∉ rest ->
  Linux.getProcessStartTime os pid = start_time_from os rest.
Proof.
  intros Hread Hrest. unfold Linux.getProcessStartTime, start_time_from.
  rewrite Hread. unfold LastIndex.
  change (head ++ ")" ++ rest) with (head ++ ")"%char :: rest).
  change (String.list_ascii_of_string ")") with [")"%char].
  rewrite last_index_found by (done || lia).
  replace (0 + len head =? -1) with false by (symmetry; apply Z.eqb_neq; unfold len; lia).
  replace (head ++ ")"%char :: rest) with ((head ++ [")"%char]) ++ rest)
    by (by rewrite <- app_assoc).
  replace (0 + len head + 1) with (len (head ++ [")"%char]))
    by (unfold len; rewrite length_app; simpl; lia).
  by rewrite slice_from_app.
Qed.

(** X8.  The bytes before the last closing parenthesis of the stat file (the
    pid and the command name, whatever it contains) play no part in the
    start time: it is computed from the text after that parenthesis. *)
Theorem getProcessStartTime_after_name (os : OS) (pid : Z) (head rest : str) :
  os_ReadFile os ("/proc/" ++ Itoa pid ++ "/stat") = Ok (head ++ ")" ++ rest) ->
  ")"%char ∉ rest ->
  Linux.getProcessStartTime os pid = start_time_from os rest.
Proof. apply getProcessStartTime_rest. Qed.

Lemma getProcessStartTime_after_name_example :
  Linux.getProcessStartTime host_dual_stack 1234
  = start_time_from host_dual_stack
      (" S 1 1234 1234 0 -1 4194560 100 0 0 0 5 3 0 0 20 0 1 0 360000 10000000 500"
       ++ [newline]).
Proof.
  apply (getProcessStartTime_after_name host_dual_stack 1234 "1234 (nginx").
  - vm_compute. reflexivity.
  - vm_compute. intros H. repeat (apply elem_of_cons in H as [H|H]; [discriminate|]).
    by apply elem_of_nil in H.
Defined.

Lemma wrap64_small z : int_min <= z <= int_max -> wrap64 z = z.
Proof.
  unfold int_min, int_max, wrap64. intros H.
  rewrite Z.mod_small; lia.
Qed.

(** X9.  For a process started after boot and not in the future, on a host
    up for less than nine thousand million seconds, nothing wraps around:
    the start time is the boot time plus ten milliseconds per tick, and
    lies between boot and now. *)
Theorem getProcessStartTime_in_range (os : OS) (pid : Z) (head rest : str)
    (startTicks uptime : Z) :
  os_ReadFile os ("/proc/" ++ Itoa pid ++ "/stat") = Ok (head ++ ")" ++ rest) ->
  ")"%char ∉ rest ->
  Fields rest !! 19%nat ≫= Atoi = Some startTicks ->
  syscall_Sysinfo os = Ok uptime ->
  0 <= startTicks <= 100 * uptime ->
  uptime <= 9000000000 ->
  Linux.getProcessStartTime os pid
    = Ok (time_Now os - uptime * Second + startTicks * 10 * Millisecond)
  /\ time_Now os - uptime * Second
     <= time_Now os - uptime * Second + startTicks * 10 * Millisecond
     <= time_Now os.
Proof.
  intros Hread Hrest Hticks Hup Hrange Hlong.
  rewrite (getProcessStartTime_rest os pid head rest) by done.
  unfold start_time_from.
  assert (20 <= len' (Fields rest)) as Hlen.
  { destruct (Fields rest !! 19%nat) as [f|] eqn:E; [|done].
    apply lookup_lt_Some in E. unfold len'. lia. }
  replace (len' (Fields rest) <? 20) with false by (symmetry; apply Z.ltb_ge; lia).
  rewrite Hticks, Hup. unfold Time_Add, Second, Millisecond in *.
  rewrite (wrap64_small (- uptime)) by (unfold int_min, int_max; lia).
  rewrite (wrap64_small (- uptime * 1000000000)) by (unfold int_min, int_max; lia).
  rewrite (wrap64_small (startTicks * 1000)) by (unfold int_min, int_max; lia).
  replace (startTicks * 1000 ÷ 100) with (startTicks * 10).
  2: { replace (startTicks * 1000) with (startTicks * 10 * 100) by lia.
       by rewrite Z.quot_mul by lia. }
  rewrite (wrap64_small (startTicks * 10 * 1000000)) by (unfold int_min, int_max; lia).
  split; [f_equal; lia | lia].
Qed.

Lemma getProcessStartTime_in_range_example :
  Linux.getProcessStartTime host_dual_stack 1234 = Ok (an_instant - 3600 * Second).
Proof.
  destruct (getProcessStartTime_in_range host_dual_stack 1234 "1234 (nginx"
              (" S 1 1234 1234 0 -1 4194560 100 0 0 0 5 3 0 0 20 0 1 0 360000 10000000 500"
               ++ [newline]) 360000 7200) as [-> _].
  - vm_compute. reflexivity.
  - vm_compute. intros H. repeat (apply elem_of_cons in H as [H|H]; [discriminate|]).
    by apply elem_of_nil in H.
  - vm_compute. reflexivity.
  - reflexivity.
  - lia.
  - lia.
  - vm_compute. reflexivity.
Defined.

Lemma index_single_absent c s i : c ∉ s -> index_from i s [c] = -1.
Proof.
  revert i. induction s as [|x s IH]; intros i Hc; [done|].
  apply not_elem_of_cons in Hc as [Hx Hs].
  cbn [index_from]. rewrite HasPrefix_single.
  destruct (Ascii.eqb_spec x c); [congruence|]. by apply IH.
Qed.

Lemma index_single_present c s i : c ∈ s -> i <= index_from i s [c].
Proof.
  revert i. induction s as [|x s IH]; intros i Hc; [by apply elem_of_nil in Hc|].
  cbn [index_from]. rewrite HasPrefix_single.
  destruct (Ascii.eqb_spec x c) as [->|Hx]; [lia|].
  apply elem_of_cons in Hc as [->|Hc]; [done|].
  specialize (IH (i + 1) Hc). lia.
Qed.

Lemma Index_single c s :
  (c ∈ s /\ 0 <= Index s [c]) \/ ((c ∉ s) /\ Index s [c] = -1).
Proof.
  unfold Index. destruct (decide (c ∈ s)) as [H|H].
  - left. split; [done|]. by apply index_single_present.
  - right. split; [done|]. by apply index_single_absent.
Qed.

(** X11.  The ss parser crashes exactly on a line of seven or more fields
    whose last field contains [pid=] with neither a comma nor a closing
    parenthesis after it. *)
Theorem parseSSLine_panics (os : OS) (line : str) (port : Z) :
  (exists text, Linux.parseSSLine os line port = Panics text)
  <-> 7 <= len' (Fields line)
      /\ exists pidProg,
           last (Fields line) = Some pidProg
           /\ Contains pidProg "pid=" = true
           /\ (","%char ∉ after_pid pidProg)
           /\ (")"%char ∉ after_pid pidProg).
Proof.
  unfold Linux.parseSSLine, after_pid.
  destruct (len' (Fields line) <? 7) eqn:Elen.
  { apply Z.ltb_lt in Elen. split; [by intros [? ?]|]. intros [? _]. lia. }
  apply Z.ltb_ge in Elen.
  destruct (last (Fields line)) as [pidProg|].
  2: { split; [by intros [? ?]|]. by intros (_ & ? & ? & _). }
  destruct (Contains pidProg "pid=") eqn:Epid; cbn [negb].
  2: { split; [by intros [? ?]|]. intros (_ & ? & [= <-] & ? & _). congruence. }
  set (rest := slice_from pidProg (Index pidProg "pid=" + 4)).
  change (String.list_ascii_of_string ",") with [","%char].
  change (String.list_ascii_of_string ")") with [")"%char].
  destruct (Index_single "," rest) as [[Hc Hi]|[Hc Hi]].
  - replace (Index rest [","%char] =? -1) with false by (symmetry; apply Z.eqb_neq; lia).
    replace (Index rest [","%char] <? 0) with false by (symmetry; apply Z.ltb_ge; lia).
    split.
    + intros [text H]. revert H. destruct (Atoi _); intros; discriminate.
    + intros (_ & ? & [= <-] & _ & ? & _). done.
  - rewrite Hi, Z.eqb_refl.
    destruct (Index_single ")" rest) as [[Hp Hj]|[Hp Hj]].
    + replace (Index rest [")"%char] <? 0) with false by (symmetry; apply Z.ltb_ge; lia).
      split.
      * intros [text H]. revert H. destruct (Atoi _); intros; discriminate.
      * intros (_ & ? & [= <-] & _ & _ & ?). done.
    + rewrite Hj. change (-1 <? 0) with true. cbv iota.
      split; [|by eexists].
      intros _. split; [done|]. by exists pidProg.
Qed.

(** X12.  The Linux listing fails exactly when neither ss nor netstat could
    be run, with the failure of netstat as the cause. *)
Theorem linux_ListAll_fails (os : OS) (e : error) :
  Linux.ListAll os = Returns (Err e)
  <-> exists e1 e2,
        exec_Output os ["ss" : str; "-tulnp" : str] = Err e1
        /\ exec_Output os netstat_all = Err e2
        /\ e = Wrapf "failed to list ports" e2.
Proof.
  unfold Linux.ListAll, netstat_all.
  destruct (exec_Output os ["ss" : str; "-tulnp" : str]) as [output|e1].
  - unfold mbind, outcome_bind.
    split; [|by intros (? & ? & ? & _)].
    by destruct (Linux.parseSSOutput os output).
  - destruct (exec_Output os _) as [output|e2].
    + split; [done|]. by intros (? & ? & _ & ? & _).
    + split.
      * intros [= <-]. by exists e1, e2.
      * by intros (? & ? & _ & [= <-] & ->).
Qed.

Lemma linux_parseSSLine_port os line port p :
  Linux.parseSSLine os line port = Returns (Ok (Some p)) -> Port p = port.
Proof.
  unfold Linux.parseSSLine.
  destruct (_ <? 7); [done|].
  destruct (last _) as [pidProg|]; [|done].
  destruct (negb _); [done|].
  destruct (_ <? 0); [done|].
  destruct (Atoi _) as [pid|]; [|done].
  intros [= <-].
  by destruct (linux_enrich_fields os (new_Process pid [] port)) as (_ & -> & _).
Qed.

Lemma linux_parseNetstatLine_port os line port p :
  Linux.parseNetstatLine os line port = Ok (Some p) -> Port p = port.
Proof.
  unfold Linux.parseNetstatLine.
  destruct (_ <? 7); [done|].
  destruct (_ !! _) as [pidProg|]; [|done].
  destruct (str_eqb _ _); [done|].
  destruct (Split _ _) as [|pidText [|name [|? ?]]]; try done.
  destruct (Atoi _) as [pid|]; [|done].
  intros [= <-].
  by destruct (linux_enrich_fields os (new_Process pid name port)) as (_ & -> & _).
Qed.

Lemma darwin_parseLsof_lines_port os lines port p :
  Darwin.parseLsof_lines os lines port = Some p -> Port p = port.
Proof.
  induction lines as [|line rest IH]; [done|].
  cbn [Darwin.parseLsof_lines].
  destruct (_ <? 9); [done|].
  destruct (negb _); [done|].
  destruct (Fields line) as [|name [|pidText ?]]; try done.
  destruct (Atoi pidText) as [pid|]; [|done].
  intros [= <-].
  pose proof (darwin_enrich_pid_port os (new_Process pid name port)) as H.
  by injection H.
Qed.

(** X13.  A record returned by a lookup carries the port that was asked
    for, on each of the three back ends. *)
Theorem FindByPort_port (os : OS) (port : Z) (p : Process) :
  Linux.FindByPort os port = Returns (Ok (Some p))
  \/ Darwin.FindByPort os port = Ok (Some p)
  \/ (exists detect, Windows.FindByPort detect os port = Ok (Some p)) ->
  Port p = port.
Proof.
  intros [H|[H|[detect H]]].
  - unfold Linux.FindByPort, mbind, outcome_bind in H.
    assert (Linux.findUsingNetstat os port = Ok (Some p) -> Port p = port) as Hnet.
    { unfold Linux.findUsingNetstat.
      destruct (exec_Output os _) as [output|]; [|done].
      destruct (find _ _) as [line|]; [|done]. apply linux_parseNetstatLine_port. }
    destruct (Linux.findUsingSS os port) as [r|] eqn:Ess; [|done].
    destruct r as [[proc|]|].
    + injection H as ->.
      unfold Linux.findUsingSS in Ess.
      destruct (exec_Output os _) as [output|]; [|done].
      destruct (find _ _) as [line|]; [|done].
      by apply linux_parseSSLine_port in Ess.
    + injection H as H. by apply Hnet.
    + injection H as H. by apply Hnet.
  - unfold Darwin.FindByPort, Darwin.parseLsofOutput in H.
    destruct (exec_Output os _) as [output|cause].
    + destruct (_ <? 2); [done|]. injection H as H.
      by apply darwin_parseLsof_lines_port in H.
    + destruct cause as [code| | |]; try done. by destruct code as [|[]|].
  - unfold Windows.FindByPort in H.
    destruct (exec_Output os _) as [output|]; [|done].
    destruct (_ =? 0); [done|].
    apply windows_getProcessDetails_id in H. by injection H.
Qed.

Lemma FindByPort_port_example :
  exists p, Linux.FindByPort host_other_port 80 = Returns (Ok (Some p)) /\ Port p = 80.
Proof.
  eexists. split; [vm_compute; reflexivity|].
  eapply (FindByPort_port host_other_port 80). left. vm_compute. reflexivity.
Defined.

(** X10.  The Linux enrichment reads the command name only when the record
    has none, and leaves the name alone otherwise; the pid and the port
    are never touched. *)
Theorem linux_enrich_name (os : OS) (proc : Process) :
  Name (Linux.enrichProcessInfo os proc)
  = (if str_eqb (Name proc) [] then
       match os_ReadFile os ("/proc/" ++ Itoa (PID proc) ++ "/comm") with
       | Ok comm => TrimSpace comm
       | Err _ => Name proc
       end
     else Name proc)
  /\ pid_port (Linux.enrichProcessInfo os proc) = pid_port proc.
Proof.
  split.
  - unfold Linux.enrichProcessInfo.
    destruct (str_eqb (Name proc) []);
      [destruct (os_ReadFile os ("/proc/" ++ Itoa (PID proc) ++ "/comm"))|];
      destruct (os_ReadFile os ("/proc/" ++ Itoa (PID proc) ++ "/cmdline"));
      destruct (os_Readlink os ("/proc/" ++ Itoa (PID proc) ++ "/cwd"));
      cbn [PID set_Name set_Command set_ProjectPath];
      destruct (Linux.getProcessStartTime os (PID proc));
      try destruct (os_Stat os ("/proc/" ++ Itoa (PID proc)));
      cbn [PID set_Name set_Command set_ProjectPath set_StartTime];
      destruct (isDockerProcess os (PID proc)); done.
  - destruct (linux_enrich_fields os proc) as (Hpid & Hport & _).
    unfold pid_port. by rewrite Hpid, Hport.
Qed.


(** ** The macOS back end *)

Lemma uint_text_no_dash d :
  "-"%char ∉ String.list_ascii_of_string (NilEmpty.string_of_uint d).
Proof.
  induction d; cbn [NilEmpty.string_of_uint String.list_ascii_of_string];
    [apply not_elem_of_nil|..];
    (apply not_elem_of_cons; split; [discriminate|assumption]).
Qed.

Lemma uint_text_shape d :
  String.list_ascii_of_string (NilZero.string_of_uint d) <> []
  /\ "-"%char ∉ String.list_ascii_of_string (NilZero.string_of_uint d).
Proof.
  pose proof (uint_text_no_dash d) as H.
  destruct d; cbn [NilZero.string_of_uint]; try (split; [discriminate|exact H]).
  split; [discriminate|]. cbn. apply not_elem_of_cons. split; [discriminate|].
  apply not_elem_of_nil.
Qed.

(** The decimal text of a number: an optional sign, then at least one
    byte, none of them a dash. *)
Lemma Itoa_shape n :
  exists digits,
    digits <> [] /\ ("-"%char ∉ digits)
    /\ (Itoa n = digits \/ Itoa n = "-"%char :: digits).
Proof.
  unfold Itoa. destruct (Z.to_int n) as [d|d]; cbn [NilZero.string_of_int].
  - exists (String.list_ascii_of_string (NilZero.string_of_uint d)).
    destruct (uint_text_shape d). split; [done|]. split; [done|]. by left.
  - exists (String.list_ascii_of_string (NilZero.string_of_uint d)).
    destruct (uint_text_shape d). split; [done|]. split; [done|]. by right.
Qed.

Lemma Itoa_inj a b : Itoa a = Itoa b -> a = b.
Proof.
  unfold Itoa. intros H.
  apply (f_equal String.string_of_list_ascii) in H.
  rewrite !String.string_of_list_ascii_of_string in H.
  apply (f_equal NilZero.int_of_string) in H.
  assert (forall n, NilZero.int_of_string (NilZero.string_of_int (Z.to_int n))
                    = Some (Z.to_int n)) as Hisi.
  { intros n. apply NilZero.isi; destruct n as [|p|p]; cbn [Z.to_int]; try discriminate;
      intros [= Hp]; by apply Unsigned.to_uint_nonnil in Hp. }
  rewrite !Hisi in H. injection H as H. by apply to_int_inj.
Qed.

Lemma first_separator (c : ascii) x y r r' :
  c ∉ x -> c ∉ y -> x ++ c :: r = y ++ c :: r' -> x = y /\ r = r'.
Proof.
  revert y. induction x as [|a x IH]; intros y Hx Hy H.
  - destruct y as [|b y]; [by injection H|].
    injection H as <- _. apply not_elem_of_cons in Hy as [Hy _]. done.
  - destruct y as [|b y].
    + injection H as -> _. apply not_elem_of_cons in Hx as [Hx _]. done.
    + injection H as -> H.
      apply not_elem_of_cons in Hx as [_ Hx]. apply not_elem_of_cons in Hy as [_ Hy].
      destruct (IH y Hx Hy H) as [-> ->]. done.
Qed.

(** Different pairs of pid and port have different keys. *)
Lemma map_key_inj pid port pid' port' :
  map_key pid port = map_key pid' port' -> pid = pid' /\ port = port'.
Proof.
  unfold map_key. change (String.list_ascii_of_string "-") with ["-"%char].
  intros H.
  assert (Itoa pid = Itoa pid' /\ Itoa port = Itoa port') as [Hp Hq].
  { destruct (Itoa_shape pid) as (d & Hne & Hd & [E|E]);
      destruct (Itoa_shape pid') as (d' & Hne' & Hd' & [E'|E']);
      rewrite E, E' in H |- *; cbn [app] in H.
    - by apply first_separator in H.
    - destruct d as [|c d]; [done|]. injection H as -> _.
      apply not_elem_of_cons in Hd as [Hd _]. done.
    - destruct d' as [|c d']; [done|]. injection H as <- _.
      apply not_elem_of_cons in Hd' as [Hd' _]. done.
    - injection H as H. apply first_separator in H as [-> Hq]; done. }
  split; by apply Itoa_inj.
Qed.

Lemma parseLsof_map_step os line rest m :
  Darwin.parseLsof_map os (line :: rest) m
  = match lsof_listener line with
    | None => Darwin.parseLsof_map os rest m
    | Some (name, pid, port) =>
        match m !! map_key pid port with
        | Some _ => Darwin.parseLsof_map os rest m
        | None =>
            Darwin.parseLsof_map os rest
              (<[map_key pid port := Darwin.enrichProcessInfo os (new_Process pid name port)]> m)
        end
    end.
Proof.
  cbn [Darwin.parseLsof_map]. unfold lsof_listener.
  destruct (_ <? 9); [done|].
  destruct (negb _); [done|].
  destruct (_ ≫= Atoi) as [port|]; [|done].
  destruct (Fields line) as [|name [|pidText ?]]; try done.
  by destruct (Atoi pidText).
Qed.

Lemma parseLsof_map_keys os lines m pid port :
  is_Some (Darwin.parseLsof_map os lines m !! map_key pid port)
  <-> is_Some (m !! map_key pid port)
      \/ exists line name, line ∈ lines /\ lsof_listener line = Some (name, pid, port).
Proof.
  revert m. induction lines as [|line rest IH]; intros m.
  - cbn [Darwin.parseLsof_map]. split; [by left|].
    intros [H|(line & name & Hin & _)]; [done|]. by apply elem_of_nil in Hin.
  - rewrite parseLsof_map_step.
    assert ((exists line0 name, line0 ∈ line :: rest
                                /\ lsof_listener line0 = Some (name, pid, port))
            <-> (exists name, lsof_listener line = Some (name, pid, port))
                \/ exists line0 name, line0 ∈ rest
                                      /\ lsof_listener line0 = Some (name, pid, port))
      as Hsplit.
    { split.
      - intros (line0 & name & [->|Hin]%elem_of_cons & H); [left; by exists name|].
        right. by exists line0, name.
      - intros [[name H]|(line0 & name & Hin & H)].
        + exists line, name. split; [apply elem_of_cons; by left|done].
        + exists line0, name. split; [apply elem_of_cons; by right|done]. }
    rewrite Hsplit. clear Hsplit.
    destruct (lsof_listener line) as [[[name0 pid0] port0]|] eqn:El.
    + destruct (m !! map_key pid0 port0) as [p0|] eqn:Em.
      * rewrite IH. split; [intros [H|H]; [by left|right; by right]|].
        intros [H|[[name [= -> -> ->]]|H]]; [by left| |by right].
        left. by rewrite Em.
      * rewrite IH. split.
        -- intros [H|H]; [|right; by right].
           destruct (decide (map_key pid port = map_key pid0 port0)) as [E|E].
           ++ apply map_key_inj in E as [-> ->]. right. left. by exists name0.
           ++ rewrite lookup_insert_ne in H by done. by left.
        -- intros [H|[[name [= -> -> ->]]|H]]; [|left; by rewrite lookup_insert_eq|by right].
           left. destruct (decide (map_key pid port = map_key pid0 port0)) as [E|E].
           ++ rewrite E. by rewrite lookup_insert_eq.
           ++ by rewrite lookup_insert_ne.
    + rewrite IH. split; [intros [H|H]; [by left|right; by right]|].
      intros [H|[[name H]|H]]; [by left|done|by right].
Qed.

Lemma keyed_values_pairs m pid port :
  keyed m ->
  (pid, port) ∈ map pid_port (map_values m) <-> is_Some (m !! map_key pid port).
Proof.
  intros Hm. unfold map_values. split.
  - intros (p & Hp & Hin)%list_elem_of_fmap.
    apply list_elem_of_fmap in Hin as ([k p'] & -> & Hin).
    apply elem_of_map_to_list in Hin. cbn [snd] in Hp.
    pose proof (Hm _ _ Hin) as ->. injection Hp as -> ->. by exists p'.
  - intros [p Hp]. pose proof (Hm _ _ Hp) as E.
    apply map_key_inj in E as [-> ->].
    apply list_elem_of_fmap. exists p. split; [done|].
    apply list_elem_of_fmap. exists (map_key (PID p) (Port p), p). split; [done|].
    by apply elem_of_map_to_list.
Qed.

(** X14.  The macOS listing holds exactly one record for each pair of pid
    and port that some listener line of lsof names, and no other. *)
Theorem darwin_ListAll_pairs (os : OS) (output : str) (processes : list Process) :
  exec_Output os lsof_all = Ok output ->
  Darwin.ListAll os = Ok processes ->
  NoDup (map pid_port processes)
  /\ forall pid port,
       (pid, port) ∈ map pid_port processes
       <-> exists line name,
             line ∈ tail (Split (TrimSpace output) newline)
             /\ lsof_listener line = Some (name, pid, port).
Proof.
  intros Hrun Hlist. split; [by eapply darwin_ListAll_distinct|].
  revert Hlist. unfold Darwin.ListAll, Darwin.parseLsofOutputMultiple.
  unfold lsof_all in Hrun. rewrite Hrun.
  destruct (Z.ltb_spec (len' (Split (TrimSpace output) newline)) 2) as [Hshort|_].
  - intros [= <-] pid port. split; [by intros ?%elem_of_nil|].
    intros (line & name & Hin & _).
    destruct (Split (TrimSpace output) newline) as [|h [|? ?]];
      [by apply elem_of_nil in Hin|by apply elem_of_nil in Hin|].
    unfold len' in Hshort. cbn [length] in Hshort. lia.
  - intros [= <-] pid port.
    rewrite keyed_values_pairs by apply darwin_parseLsof_map_keyed, keyed_empty.
    rewrite parseLsof_map_keys. rewrite lookup_empty.
    split; [intros [[? [=]]|H]; done|by right].
Qed.

Lemma darwin_ListAll_pairs_example :
  exists processes,
    Darwin.ListAll mac_dual_stack = Ok processes
    /\ (501, 3000) ∈ map pid_port processes.
Proof.
  destruct (Darwin.ListAll mac_dual_stack) as [processes|] eqn:E; [|discriminate E].
  destruct (darwin_ListAll_pairs mac_dual_stack
              (text_lines [lsof_header; lsof_node_v4; lsof_node_v6]) processes)
    as [_ Hpairs]; [vm_compute; reflexivity|exact E|].
  exists processes. split; [reflexivity|].
  apply Hpairs. exists lsof_node_v4, ("node" : str). split.
  - vm_compute. apply elem_of_cons. by left.
  - vm_compute. reflexivity.
Defined.



(** X15.  On macOS, once the first ps call has answered, the start time is
    the one ps prints, the current time when that text cannot be parsed,
    and the one the record had when the second ps call fails. *)
Theorem darwin_enrich_start_time (os : OS) (proc : Process) (comm : str) :
  exec_Output os (ps_of (PID proc) "comm=,command=") = Ok comm ->
  StartTime (Darwin.enrichProcessInfo os proc)
  = match exec_Output os (ps_of (PID proc) "lstart=") with
    | Ok out =>
        match time_Parse os Darwin.lstart_layout (TrimSpace out) with
        | Ok t => t
        | Err _ => time_Now os
        end
    | Err _ => StartTime proc
    end.
Proof.
  unfold ps_of. intros Hcomm. unfold Darwin.enrichProcessInfo. rewrite Hcomm. clear Hcomm.
  set (p1 := match Split (TrimSpace comm) newline with [] => proc | _ => _ end).
  assert (StartTime p1 = StartTime proc) as H1.
  { subst p1. destruct (Split _ _) as [|line ?]; [done|].
    by destruct (SplitN2 line " ") as [|? [|? ?]]. }
  clearbody p1.
  set (p2 := match exec_Output os _ with Ok _ => _ | Err _ => p1 end).
  assert (StartTime p2
          = match exec_Output os ["ps" : str; "-p" : str; Itoa (PID proc); "-o" : str;
                                  "lstart=" : str] with
            | Ok out =>
                match time_Parse os Darwin.lstart_layout (TrimSpace out) with
                | Ok t => t
                | Err _ => time_Now os
                end
            | Err _ => StartTime proc
            end) as H2.
  { subst p2. destruct (exec_Output os _); [|exact H1]. by destruct (time_Parse os _ _). }
  clearbody p2. rewrite <- H2.
  set (p3 := match exec_Output os _ with Ok _ => _ | Err _ => p2 end).
  assert (StartTime p3 = StartTime p2) as H3.
  { subst p3. clear H2. destruct (exec_Output os _) as [text|]; [|done].
    by destruct (darwin_cwd_lines_frame os (Split text newline) p2) as [_ ->]. }
  clearbody p3. rewrite <- H3.
  by destruct (_ || _).
Qed.

Lemma darwin_enrich_start_time_example :
  StartTime (Darwin.enrichProcessInfo mac_all_answer (new_Process 501 "node" 3000))
  = 63839356245 * Second.
Proof.
  rewrite (darwin_enrich_start_time mac_all_answer (new_Process 501 "node" 3000)
             (text_lines ["node node server.js" : str])).
  - vm_compute. reflexivity.
  - vm_compute. reflexivity.
Defined.



(** ** The Windows back end *)

Lemma HasPrefix_app s prefix : HasPrefix s prefix = true -> exists r, s = prefix ++ r.
Proof.
  revert s. induction prefix as [|p prefix IH]; intros s; [by exists s|].
  destruct s as [|c s]; [done|]. cbn [HasPrefix].
  intros [Hc Hs]%andb_true_iff. apply Ascii.eqb_eq in Hc as ->.
  destruct (IH s Hs) as [r ->]. by exists r.
Qed.

Lemma match_text_space_inv text s :
  match_text_space text s = true ->
  exists pre c post, s = pre ++ text ++ c :: post /\ isRegexSpace c = true.
Proof.
  induction s as [|x s IH].
  - cbn [match_text_space]. rewrite orb_false_r. intros [Hp Hc]%andb_true_iff.
    apply HasPrefix_app in Hp as [r Hr]. destruct text; [|done]. by destruct r.
  - cbn [match_text_space]. intros [[Hp Hc]%andb_true_iff|H]%orb_true_iff.
    + apply HasPrefix_app in Hp as [r Hr]. rewrite Hr in Hc |- *.
      rewrite drop_app_length in Hc. destruct r as [|c post]; [done|].
      by exists [], c, post.
    + destruct (IH H) as (pre & c & post & -> & Hc). by exists (x :: pre), c, post.
Qed.

Lemma findPID_lines_sound lines port :
  Windows.findPID_lines lines port <> 0 ->
  exists line,
    line ∈ lines
    /\ Contains line "LISTENING" = true
    /\ (exists pre c post,
          line = pre ++ (":" ++ Itoa port) ++ c :: post /\ isRegexSpace c = true)
    /\ last (Fields line) ≫= Atoi = Some (Windows.findPID_lines lines port).
Proof.
  induction lines as [|line rest IH]; [done|]. cbn [Windows.findPID_lines].
  assert (Windows.findPID_lines rest port <> 0 ->
          exists line0,
            line0 ∈ line :: rest
            /\ Contains line0 "LISTENING" = true
            /\ (exists pre c post,
                  line0 = pre ++ (":" ++ Itoa port) ++ c :: post /\ isRegexSpace c = true)
            /\ last (Fields line0) ≫= Atoi = Some (Windows.findPID_lines rest port))
    as Hrest.
  { intros H. destruct (IH H) as (line0 & Hin & Hrest). exists line0.
    split; [apply elem_of_cons; by right|done]. }
  destruct (Contains line "LISTENING") eqn:Els; cbn [negb]; [|done].
  destruct (match_text_space _ line) eqn:Em; [|done].
  destruct (5 <=? _); [|done].
  destruct (last (Fields line) ≫= Atoi) as [pid|] eqn:Epid; [|done].
  intros _. exists line. split; [apply elem_of_cons; by left|].
  split; [done|]. split; [by apply match_text_space_inv|done].
Qed.

(** X16.  When the Windows lookup finds a pid, netstat has a LISTENING line
    in which a colon, the decimal text of the port and then white space
    occur, and whose last field is that pid. *)
Theorem windows_findPIDByPort_sound (output : str) (port : Z) :
  Windows.findPIDByPort output port <> 0 ->
  exists line,
    line ∈ Split output newline
    /\ Contains line "LISTENING" = true
    /\ (exists pre c post,
          line = pre ++ (":" ++ Itoa port) ++ c :: post /\ isRegexSpace c = true)
    /\ last (Fields line) ≫= Atoi = Some (Windows.findPIDByPort output port).
Proof. apply findPID_lines_sound. Qed.

Lemma windows_findPIDByPort_sound_example :
  Windows.findPIDByPort (text_lines [win_netstat_node]) 3000 = 4242
  /\ Windows.findPIDByPort (text_lines [win_netstat_node]) 300 = 0
  /\ exists line,
       line ∈ Split (text_lines [win_netstat_node]) newline
       /\ last (Fields line) ≫= Atoi = Some 4242.
Proof.
  split; [vm_compute; reflexivity|]. split; [vm_compute; reflexivity|].
  destruct (windows_findPIDByPort_sound (text_lines [win_netstat_node]) 3000)
    as (line & Hin & _ & _ & Hpid); [vm_compute; discriminate|].
  exists line. split; [exact Hin|exact Hpid].
Defined.

(** X17.  The Windows listing never shows a process: it is empty whenever
    netstat can be run, and the error of netstat otherwise. *)
Theorem windows_ListAll_result (detect : Z -> str -> str) (os : OS) :
  Windows.ListAll detect os
  = match exec_Output os win_netstat with
    | Ok _ => Ok []
    | Err err => Err (Wrapf "netstat failed" err)
    end.
Proof.
  unfold Windows.ListAll, Windows.parseNetstatOutput, win_netstat.
  destruct (exec_Output os _) as [output|]; [|done].
  by rewrite windows_parseNetstat_map_same.
Qed.

Lemma comma_terminated_app a b :
  comma_terminated (a ++ b) = comma_terminated a ++ comma_terminated b.
Proof. unfold comma_terminated. by rewrite map_app, concat_app. Qed.

Lemma comma_terminated_Join l :
  l <> [] -> comma_terminated l = Join l [","%char] ++ [","%char].
Proof.
  induction l as [|e l IH]; [done|]. intros _.
  destruct l as [|e' l]; [unfold comma_terminated; simpl; by rewrite app_nil_r|].
  rewrite Join_cons by done.
  change (comma_terminated (e :: e' :: l))
    with ((e ++ [","%char]) ++ comma_terminated (e' :: l)).
  rewrite IH by done. by rewrite <- !app_assoc.
Qed.

Lemma parseCSV_chars_text line fields current inQuotes :
  exists tail,
    (tail = [] \/ tail = [","%char])
    /\ comma_terminated (Windows.parseCSV_chars line fields current inQuotes)
       = comma_terminated (rev fields) ++ rev current ++ line ++ tail.
Proof.
  revert fields current inQuotes.
  induction line as [|char rest IH]; intros fields current inQuotes.
  - cbn [Windows.parseCSV_chars]. destruct current as [|c current].
    + exists []. split; [by left|]. by rewrite !app_nil_r.
    + exists [","%char]. split; [by right|].
      cbn [rev]. rewrite comma_terminated_app.
      unfold comma_terminated at 2. cbn [map concat].
      by rewrite !app_nil_r.
  - cbn [Windows.parseCSV_chars].
    destruct (Ascii.eqb char quote_byte).
    { destruct (IH fields (char :: current) (negb inQuotes)) as (tail & Ht & ->).
      exists tail. split; [done|]. cbn [rev]. by rewrite <- !app_assoc. }
    destruct (Ascii.eqb_spec char ",") as [->|_].
    + destruct inQuotes.
      * destruct (IH fields (","%char :: current) true) as (tail & Ht & ->).
        exists tail. split; [done|]. cbn [rev]. by rewrite <- !app_assoc.
      * destruct (IH (rev current :: fields) [] false) as (tail & Ht & ->).
        exists tail. split; [done|]. cbn [rev]. rewrite comma_terminated_app.
        unfold comma_terminated at 2. cbn [map concat].
        rewrite !app_nil_r. by rewrite <- !app_assoc.
    + destruct (IH fields (char :: current) inQuotes) as (tail & Ht & ->).
      exists tail. split; [done|]. cbn [rev]. by rewrite <- !app_assoc.
Qed.

(** X18.  The CSV reader loses nothing but at most one closing comma:
    joining its fields with commas gives the line back (a line of ASCII
    text, as everywhere here; the code copies rune by rune). *)
Theorem parseCSVLine_Join (line : str) :
  line = Join (Windows.parseCSVLine line) ","
  \/ line = Join (Windows.parseCSVLine line) "," ++ ",".
Proof.
  unfold Windows.parseCSVLine.
  destruct (parseCSV_chars_text line [] [] false) as (tail & Ht & H).
  change (comma_terminated (rev []) ++ rev [] ++ line ++ tail) with (line ++ tail) in H.
  change (String.list_ascii_of_string ",") with [","%char].
  destruct (Windows.parseCSV_chars line [] [] false) as [|f fs] eqn:E.
  - left. destruct line; [done|]. by destruct Ht as [-> | ->].
  - rewrite comma_terminated_Join in H by done.
    destruct Ht as [-> | ->].
    + right. by rewrite app_nil_r in H.
    + left. by apply app_inj_tail in H as [-> _].
Qed.

Lemma unquoted_comma_snoc q s c :
  unquoted_comma q (s ++ [c])
  = unquoted_comma q s
    || (Ascii.eqb c "," && negb (Ascii.eqb c quote_byte)
        && negb (quote_state s q)).
Proof.
  unfold quote_state. revert q. induction s as [|x s IH]; intros q.
  - cbn [app unquoted_comma fold_left].
    destruct (Ascii.eqb c quote_byte); [by destruct (Ascii.eqb c ",")|].
    destruct (Ascii.eqb c ","); cbn; by rewrite ?orb_false_r.
  - cbn [app unquoted_comma fold_left].
    destruct (Ascii.eqb x quote_byte); [apply IH|].
    destruct (Ascii.eqb x ","); [|apply IH].
    rewrite IH. by rewrite orb_assoc.
Qed.

Lemma parseCSV_chars_fields line fields current inQuotes :
  Forall (fun f => unquoted_comma false f = false) fields ->
  unquoted_comma false (rev current) = false ->
  quote_state (rev current) false = inQuotes ->
  Forall (fun f => unquoted_comma false f = false)
         (Windows.parseCSV_chars line fields current inQuotes).
Proof.
  revert fields current inQuotes.
  induction line as [|char rest IH]; intros fields current inQuotes Hf Hc Hq.
  - cbn [Windows.parseCSV_chars]. destruct current as [|c current].
    + by apply Forall_rev.
    + apply Forall_rev. by constructor.
  - cbn [Windows.parseCSV_chars].
    destruct (Ascii.eqb char quote_byte) eqn:Equote.
    { apply IH; [done| |].
      - cbn [rev]. rewrite unquoted_comma_snoc, Hc, Equote.
        by rewrite andb_false_r.
      - cbn [rev]. unfold quote_state in *. rewrite fold_left_app. cbn [fold_left].
        by rewrite Equote, Hq. }
    destruct (Ascii.eqb char ",") eqn:Ecomma.
    + destruct inQuotes.
      * apply IH; [done| |].
        -- cbn [rev]. rewrite unquoted_comma_snoc, Hc, Hq. by rewrite andb_false_r.
        -- cbn [rev]. unfold quote_state in *. rewrite fold_left_app. cbn [fold_left].
           by rewrite Equote.
      * apply IH; [by constructor|done|done].
    + apply IH; [done| |].
      * cbn [rev]. rewrite unquoted_comma_snoc, Hc, Ecomma. done.
      * cbn [rev]. unfold quote_state in *. rewrite fold_left_app. cbn [fold_left].
        by rewrite Equote.
Qed.

(** X19.  A field of the CSV reader holds a comma only between quotes. *)
Theorem parseCSVLine_fields (line : str) :
  Forall (fun f => unquoted_comma false f = false) (Windows.parseCSVLine line).
Proof. by apply parseCSV_chars_fields. Qed.



(** ** The helpers of the views *)



(** X20.  For a bound of three or more, [truncate] returns at most [max]
    bytes: the text itself when it is no longer than that, and otherwise
    its first [max - 3] bytes and three dots, [max] bytes in all. *)
Theorem truncate_length (s : str) (max : Z) :
  3 <= max ->
  len (UI.truncate s max) <= max
  /\ (len s <= max -> UI.truncate s max = s)
  /\ (max < len s ->
      UI.truncate s max = take (Z.to_nat (max - 3)) s ++ "..."
      /\ len (UI.truncate s max) = max).
Proof.
  intros Hmax. unfold UI.truncate.
  destruct (Z.leb_spec (len s) max) as [H|H].
  - split; [done|]. split; [done|lia].
  - rewrite slice_take.
    assert (len (take (Z.to_nat (max - 3)) s ++ "...") = max) as Hlen.
    { unfold len in *. rewrite length_app, length_take. simpl. lia. }
    split; [lia|]. split; [lia|done].
Qed.

Lemma truncate_length_example :
  UI.truncate "/home/u/projects/a-rather-long-project-name" 30
  = "/home/u/projects/a-rather-l...".
Proof.
  destruct (truncate_length "/home/u/projects/a-rather-long-project-name" 30)
    as (_ & _ & H); [lia|].
  destruct H as [-> _]; [vm_compute; reflexivity|].
  vm_compute. reflexivity.
Defined.

(** X21.  The helper of the plain output is the helper of the table at 60
    bytes, and returns at most 60 bytes. *)
Theorem truncateCommand_truncate (cmd : str) :
  Plain.truncateCommand cmd = UI.truncate cmd 60
  /\ len (Plain.truncateCommand cmd) <= 60.
Proof.
  unfold Plain.truncateCommand, UI.truncate.
  change (60 - 3) with 57.
  destruct (Z.ltb_spec 60 (len cmd)) as [H|H].
  - replace (len cmd <=? 60) with false by (symmetry; apply Z.leb_gt; lia).
    split; [done|]. rewrite slice_take.
    unfold len in *. rewrite length_app, length_take.
    change (length (String.list_ascii_of_string "...")) with 3%nat. lia.
  - replace (len cmd <=? 60) with true by (symmetry; apply Z.leb_le; lia).
    by split.
Qed.


(** ** The list view, once more *)

Section ListViewFacts.

Variable formatDuration : Duration -> str.
Variable time_Since : Time -> Duration.
Variable table_nav : UI.Msg -> UI.TableModel -> Z.
Variable setrows_cursor : list UI.Row -> Z -> Z.
Variable spinner_Update : Z -> Z.

Abbreviation Update := (UI.Update formatDuration time_Since table_nav setrows_cursor spinner_Update).
Abbreviation kill_selected := (UI.kill_selected formatDuration time_Since table_nav setrows_cursor).
Abbreviation processToRow := (UI.processToRow formatDuration time_Since).

Lemma processToRow_shows ps : Forall2 shows (map processToRow ps) ps.
Proof. induction ps as [|p ps IH]; constructor; [by split|done]. Qed.

Lemma Update_cases m msg w m' cmds w' :
  Update m msg w = Returns (m', cmds, w') ->
  (w' = w
   /\ ((UI.processes m' = UI.processes m /\ UI.rows (UI.table m') = UI.rows (UI.table m))
       \/ exists ps, msg = UI.processesLoadedMsg ps
                     /\ UI.processes m' = ps
                     /\ UI.rows (UI.table m') = map processToRow ps))
  \/ exists key proc,
       msg = UI.KeyMsg key
       /\ UI.loading m = false
       /\ UI.key_Matches key UI.keys_Kill = true
       /\ UI.processes m !! Z.to_nat (UI.cursor (UI.table m)) = Some proc
       /\ w' = (Kill proc w).2
       /\ ((UI.processes m' = UI.processes m
            /\ UI.rows (UI.table m') = UI.rows (UI.table m))
           \/ (UI.processes m' = delete (Z.to_nat (UI.cursor (UI.table m))) (UI.processes m)
               /\ UI.rows (UI.table m') = map processToRow (UI.processes m'))).
Proof.
  unfold UI.Update, UI.finish. destruct msg as [wd ht|key|ps| | |].
  - intros [= <- _ <-]. left. split; [done|by left].
  - destruct (UI.loading m) eqn:Hload; [intros [= <- _ <-]; left; split; [done|by left]|].
    destruct (UI.key_Matches key UI.keys_Quit);
      [intros [= <- _ <-]; left; split; [done|by left]|].
    destruct (UI.key_Matches key UI.keys_Help);
      [intros [= <- _ <-]; left; split; [done|by left]|].
    destruct (UI.key_Matches key UI.keys_Kill) eqn:Hkey.
    + unfold UI.kill_selected, UI.finish.
      destruct (_ && _); [|intros [= <- _ <-]; left; split; [done|by left]].
      destruct (_ <? 0); [done|].
      destruct (UI.processes m !! _) as [proc|] eqn:Hsel; [|done].
      destruct (Kill proc w) as [[err|] w1] eqn:Hkill; intros [= <- _ <-];
        right; exists key, proc; rewrite Hkill;
        (do 5 (split; [done|])); [by left|by right].
    + destruct (UI.key_Matches key UI.keys_Reload);
        intros [= <- _ <-]; left; (split; [done|by left]).
  - intros [= <- _ <-]. left. split; [done|]. right. by exists ps.
  - intros [= <- _ <-]. left. split; [done|by left].
  - destruct (UI.loading m); intros [= <- _ <-]; left; (split; [done|by left]).
  - intros [= <- _ <-]. left. split; [done|by left].
Qed.

(** X22.  The rows of the table stay in step with the list of processes: if
    row [i] shows the port and the pid of process [i] before a message, it
    does so after it. *)
Theorem Update_keeps_rows_aligned (m : UI.ProcessListModel) (msg : UI.Msg) (w : World)
    (m' : UI.ProcessListModel) (cmds : list UI.Cmd) (w' : World) :
  aligned m ->
  Update m msg w = Returns (m', cmds, w') ->
  aligned m'.
Proof.
  intros Hm Hup. unfold aligned in *.
  apply Update_cases in Hup
    as [(_ & [[-> ->]|(ps & _ & -> & ->)])
       |(key & proc & _ & _ & _ & _ & _ & [[-> ->]|[Hps ->]])];
    try done; apply processToRow_shows.
Qed.

(** X23.  A message changes the world only when it is the kill key, pressed
    while the list is not loading and a process is selected; the world is
    then the one the kill of that process leaves. *)
Theorem Update_world (m : UI.ProcessListModel) (msg : UI.Msg) (w : World)
    (m' : UI.ProcessListModel) (cmds : list UI.Cmd) (w' : World) :
  Update m msg w = Returns (m', cmds, w') ->
  w' = w
  \/ exists key proc,
       msg = UI.KeyMsg key /\ (key = "delete" \/ key = "d")
       /\ UI.loading m = false
       /\ UI.processes m !! Z.to_nat (UI.cursor (UI.table m)) = Some proc
       /\ w' = (Kill proc w).2.
Proof.
  intros [[-> _]|(key & proc & -> & Hload & Hkey & Hsel & -> & _)]%Update_cases;
    [by left|].
  right. exists key, proc. repeat (split; [done|]).
  split; [|done].
  unfold UI.key_Matches, UI.keys_Kill in Hkey. cbn [existsb] in Hkey.
  rewrite orb_false_r in Hkey.
  apply orb_true_iff in Hkey as [H|H]; apply str_eqb_true in H; subst; [by left|by right].
Qed.

(** X24.  With a cursor that is not negative, no message makes the list
    view crash. *)
Theorem Update_returns (m : UI.ProcessListModel) (msg : UI.Msg) (w : World) :
  0 <= UI.cursor (UI.table m) ->
  exists m' cmds w', Update m msg w = Returns (m', cmds, w').
Proof.
  intros Hcur. unfold UI.Update, UI.finish. destruct msg as [wd ht|key|ps| | |];
    try by eexists _, _, _.
  - destruct (UI.loading m); [by eexists _, _, _|].
    destruct (UI.key_Matches key UI.keys_Quit); [by eexists _, _, _|].
    destruct (UI.key_Matches key UI.keys_Help); [by eexists _, _, _|].
    destruct (UI.key_Matches key UI.keys_Kill).
    + unfold UI.kill_selected, UI.finish.
      destruct (_ && _) eqn:Hin; [|by eexists _, _, _].
      apply andb_true_iff in Hin as [_ Hlt%Z.ltb_lt].
      replace (UI.cursor (UI.table m) <? 0) with false
        by (symmetry; apply Z.ltb_ge; lia).
      destruct (UI.processes m !! _) as [proc|] eqn:Hsel.
      * destruct (Kill proc w) as [[err|] w1]; by eexists _, _, _.
      * apply lookup_ge_None in Hsel. lia.
    + destruct (UI.key_Matches key UI.keys_Reload); by eexists _, _, _.
  - destruct (UI.loading m); by eexists _, _, _.
Qed.

End ListViewFacts.

Lemma Update_keeps_rows_aligned_example :
  exists m' cmds w',
    UI.Update no_format no_since no_nav keep_cursor no_spin
      (list_model [process_77] [["22" : str; "sshd" : str; "77" : str]])
      (UI.KeyMsg "d") (world_own (Some Second))
    = Returns (m', cmds, w')
    /\ aligned m'.
Proof.
  eexists _, _, _. split; [vm_compute; reflexivity|].
  eapply (Update_keeps_rows_aligned no_format no_since no_nav keep_cursor no_spin
            (list_model [process_77] [["22" : str; "sshd" : str; "77" : str]])
            (UI.KeyMsg "d") (world_own (Some Second))).
  - constructor; [|constructor]. split; vm_compute; reflexivity.
  - vm_compute. reflexivity.
Defined.

Lemma Update_world_example :
  exists m' cmds,
    UI.Update no_format no_since no_nav keep_cursor no_spin
      (list_model [process_77] [["22" : str]]) (UI.KeyMsg "r") world_foreign
    = Returns (m', cmds, world_foreign).
Proof.
  destruct (UI.Update no_format no_since no_nav keep_cursor no_spin
      (list_model [process_77] [["22" : str]]) (UI.KeyMsg "r") world_foreign)
    as [[[m' cmds] w']|] eqn:E; [|discriminate E].
  exists m', cmds.
  destruct (Update_world no_format no_since no_nav keep_cursor no_spin
              _ _ _ _ _ _ E) as [->|(key & proc & Hmsg & [->| ->] & _)];
    [reflexivity|discriminate Hmsg|discriminate Hmsg].
Defined.

Lemma Update_returns_example :
  exists m' cmds w',
    UI.Update no_format no_since no_nav keep_cursor no_spin
      (list_model [process_77] [["22" : str]]) (UI.KeyMsg "d") world_foreign
    = Returns (m', cmds, w').
Proof.
  apply (Update_returns no_format no_since no_nav keep_cursor no_spin).
  vm_compute. discriminate.
Defined.


(** ** Confirmation and the kill command *)



Lemma confirm_loop_yes responses :
  Plain.confirm_loop responses = true ->
  exists response, response ∈ responses /\ says_yes response = true.
Proof.
  induction responses as [|r rs IH]; [done|].
  cbn [Plain.confirm_loop].
  change (str_eqb (ToLower (TrimSpace r)) "y" || str_eqb (ToLower (TrimSpace r)) "yes")
    with (says_yes r).
  destruct (says_yes r) eqn:Eyes.
  - intros _. exists r. split; [apply elem_of_cons; by left|exact Eyes].
  - destruct (_ || _); [done|].
    intros H. destruct (IH H) as (response & Hin & Hyes).
    exists response. split; [apply elem_of_cons; by right|done].
Qed.

(** X25.  Consent needs a complete line: the question is answered with yes
    only when some line of the (ASCII) input, ended by a line feed, says
    [y] or [yes]; an input without a line feed is never a yes. *)
Theorem SimpleConfirm_yes (stdin : str) :
  (Plain.SimpleConfirm stdin = true ->
   exists response, response ∈ Plain.read_strings stdin /\ says_yes response = true)
  /\ ((newline ∉ stdin) -> Plain.SimpleConfirm stdin = false).
Proof.
  split.
  - apply confirm_loop_yes.
  - intros Hfree. unfold Plain.SimpleConfirm, Plain.read_strings.
    by rewrite Split_free.
Qed.

Section KillCommand.

Variable FindByPort : Z -> outcome (result (option Process)).


(** X28.  No kill without consent: the port check changes the world only
    when some complete line of the input says [y] or [yes] and the lookup
    has found a process, and the world is then the one the kill of that
    process leaves. *)
Theorem runPortCheck_consent (args : list str) (stdin : str) (w : World)
    (ending : Main.Ending) (reports : list Plain.Report) (w' : World) :
  Main.runPortCheck FindByPort args stdin w = Returns (ending, reports, w') ->
  w' = w
  \/ ((exists response, response ∈ Plain.read_strings stdin /\ says_yes response = true)
      /\ exists port proc,
           head args ≫= Atoi = Some port
           /\ FindByPort port = Returns (Ok (Some proc))
           /\ w' = (Kill proc w).2).
Proof.
  unfold Main.runPortCheck.
  destruct args as [|arg args]; [intros [= _ _ <-]; by left|].
  cbn [head mbind option_bind].
  destruct (Atoi arg) as [port|]; [|intros [= _ _ <-]; by left].
  destruct (FindByPort port) as [[[proc|]|err]|] eqn:Efind; cbn [mbind outcome_bind];
    [|intros [= _ _ <-]; by left|intros [= _ _ <-]; by left|done].
  unfold Plain.ShowProcessDetail.
  destruct (Plain.SimpleConfirm stdin) eqn:Eyes; [|intros [= _ _ <-]; by left].
  destruct (Kill proc w) as [[err|] w1] eqn:Ekill; intros [= _ _ <-]; right;
    (split; [by apply confirm_loop_yes|]); exists port, proc; by rewrite Ekill.
Qed.

End KillCommand.


Lemma runPortCheck_consent_example :
  exists reports w',
    Main.runPortCheck (Linux.FindByPort host_sshd) ["22" : str] ("yes" ++ [newline])
      (world_own (Some Second))
    = Returns (Main.Returned, reports, w')
    /\ exists response,
         response ∈ Plain.read_strings ("yes" ++ [newline]) /\ says_yes response = true.
Proof.
  eexists _, _. split; [vm_compute; reflexivity|].
  edestruct (runPortCheck_consent (Linux.FindByPort host_sshd) ["22" : str]
               ("yes" ++ [newline]) (world_own (Some Second)) Main.Returned)
    as [Hsame|[Hyes _]].
  - vm_compute. reflexivity.
  - apply (f_equal clock) in Hsame. vm_compute in Hsame. discriminate Hsame.
  - exact Hyes.
Defined.

(** ** Reloading the list *)

Section ReloadFacts.

Variable formatDuration : Duration -> str.
Variable time_Since : Time -> Duration.
Variable table_nav : UI.Msg -> UI.TableModel -> Z.
Variable setrows_cursor : list UI.Row -> Z -> Z.
Variable spinner_Update : Z -> Z.

(** X27.  A reload whose listing fails shows an empty list and no error:
    the message the reload command delivers makes [Update] drop every
    process and every row, end the loading state and leave the message
    line as it was. *)
Theorem reload_failure_empties_list (listing : outcome (result (list Process)))
    (e : error) (m : UI.ProcessListModel) (w : World) :
  listing = Returns (Err e) ->
  exists m' cmds,
    (msg ← Plain.reloadProcesses listing;
     UI.Update formatDuration time_Since table_nav setrows_cursor spinner_Update m msg w)
    = Returns (m', cmds, w)
    /\ UI.processes m' = []
    /\ UI.rows (UI.table m') = []
    /\ UI.loading m' = false
    /\ UI.message m' = UI.message m.
Proof.
  intros ->. unfold Plain.reloadProcesses. cbn [mbind outcome_bind].
  unfold UI.Update, UI.finish. eexists _, _. split; [reflexivity|]. done.
Qed.

End ReloadFacts.

Lemma reload_failure_example :
  exists m' cmds,
    (msg ← Plain.reloadProcesses (Linux.ListAll (host_with_files []));
     UI.Update no_format no_since no_nav keep_cursor no_spin
       (list_model [process_77] [["22" : str]]) msg world_foreign)
    = Returns (m', cmds, world_foreign)
    /\ UI.processes m' = []
    /\ UI.rows (UI.table m') = []
    /\ UI.loading m' = false
    /\ UI.message m' = [].
Proof.
  apply (reload_failure_empties_list no_format no_since no_nav keep_cursor no_spin
           (Linux.ListAll (host_with_files []))
           (Wrapf "failed to list ports" (SysError "executable file not found in $PATH"))).
  vm_compute. reflexivity.
Defined.
